(** * lhb-dashboard: a shallow embedding of [app.py]

    The dashboard looks for the most recent day that has dragon-tiger list
    data, loads three record sets for it, derives three headline metrics,
    ranks the disclosure records by net buy amount and, on demand, sends the
    ten best to a chat-completion endpoint.

    Part I holds the definitions, in the order of the source:
    - [Float64]    binary64 values and Python's [:.2f] rendering of them;
    - [Py]         the Python scalars and exceptions that the code handles;
    - [format_number];
    - [Calendar]   [datetime] arithmetic and the two [strftime] patterns;
    - the records of the three frames;
    - [Eff]        a log-and-exception monad for the calls to the data
                   source, to Streamlit and to the chat endpoint;
    - [get_lhb_data], [find_latest_data];
    - the metrics, the ranking, the AI panel and [main];
    - the vocabulary of the statements and the sample worlds.

    Part II holds the properties, component by component; Part III holds
    further properties of the same components and of the page as a whole.

    What lies outside the program is a parameter of the model: the clock,
    the three AkShare endpoints, the number reader and the sorting engine of
    pandas, the secrets file and the message of Streamlit's [KeyError], the
    table printer and the chat endpoint.  Of the sorting engine the ranking
    part also holds what pandas and numpy run: [nargsort], and numpy's
    sorting network for at most four keys; numpy's sort of longer arrays
    stays a parameter.  Amounts are whole numbers and are added exactly; the
    rounding of a float64 summation is not modelled. *)

From stdpp Require Import base option list strings gmap.
From Stdlib Require Import ZArith Lia Ascii DecimalString SpecFloat Sorted.

#[local] Open Scope Z_scope.

(* ********************************************************************* *)
(** * Part I: the program *)
(* ********************************************************************* *)

(* ===================================================================== *)
(** * Binary64 numbers *)
(* ===================================================================== *)

(** Python's [float] is IEEE-754 binary64.  The values are those of the
    Standard Library's [spec_float] at precision 53; arithmetic rounds to
    nearest, ties to even. *)
Module Float64.

Definition prec : Z := 53.
Definition emax : Z := 1024.

(** The double nearest to an integer. *)
Definition of_Z (z : Z) : spec_float := binary_normalize prec emax z 0 false.

Definition div (x y : spec_float) : spec_float := SFdiv prec emax x y.

(** [x >= y] *)
Definition ge (x y : spec_float) : bool := SFleb y x.

(** [x < 0] *)
Definition is_negative (x : spec_float) : bool := SFltb x (S754_zero false).

Definition is_nan (x : spec_float) : bool :=
  match x with S754_nan => true | _ => false end.

Definition abs (x : spec_float) : spec_float := SFabs x.

(** ** Rendering with two decimals: the format specification [.2f]

    CPython converts the exact binary value to decimal and rounds it
    correctly (ties to even) at the second decimal. *)

(** [n / d] rounded to the nearest integer, ties to even ([0 <= n], [0 < d]). *)
Definition round_half_even (n d : Z) : Z :=
  let q := n / d in
  let r := n mod d in
  match 2 * r ?= d with
  | Lt => q
  | Gt => q + 1
  | Eq => if Z.even q then q else q + 1
  end.

(** [m * 2^e * 100], rounded to an integer. *)
Definition hundredths (m : positive) (e : Z) : Z :=
  match e with
  | Z0 => 100 * Zpos m
  | Zpos p => 100 * Zpos m * 2 ^ Zpos p
  | Zneg p => round_half_even (100 * Zpos m) (2 ^ Zpos p)
  end.

Definition digits (n : Z) : string :=
  NilEmpty.string_of_uint (N.to_uint (Z.to_N n)).

Definition digit (k : Z) : ascii :=
  Ascii.ascii_of_N (48 + Z.to_N k).

Definition two_digits (k : Z) : string :=
  String (digit (k / 10)) (String (digit (k mod 10)) EmptyString).

Definition sign (s : bool) : string := if s then "-" else EmptyString.

Definition fixed2 (x : spec_float) : string :=
  match x with
  | S754_nan => "nan"
  | S754_infinity s => sign s +:+ "inf"
  | S754_zero s => sign s +:+ "0.00"
  | S754_finite s m e =>
      let h := hundredths m e in
      sign s +:+ digits (h / 100) +:+ "." +:+ two_digits (h mod 100)
  end.

End Float64.

(* ===================================================================== *)
(** * Python values and exceptions *)
(* ===================================================================== *)

Module Py.

Inductive exn : Type :=
| OverflowError                 (* int too large to convert to float *)
| IndexError                    (* positional access out of bounds *)
| KeyError (msg : string)       (* missing mapping key; the argument as raised *)
| Exception (msg : string).     (* anything an external service raises *)

Inductive outcome (A : Type) : Type :=
| Ret (a : A)
| Raise (e : exn).
Arguments Ret {A} a.
Arguments Raise {A} e.

(** The scalars that reach [format_number]: [None] (or another missing
    marker), a float (a NaN is the missing marker of a numeric column) or
    an int. *)
Inductive value : Type :=
| PyNone
| PyFloat (x : spec_float)
| PyInt (z : Z).

(** [pd.isna] *)
Definition isna (v : value) : bool :=
  match v with
  | PyNone => true
  | PyFloat x => Float64.is_nan x
  | PyInt _ => false
  end.

(** [float(v)] for a value that is not missing.  An int is rounded to the
    nearest double; Python raises when that rounding overflows. *)
Definition float (v : value) : outcome spec_float :=
  match v with
  | PyNone => Raise (Exception "float() argument must be a string or a real number")
  | PyFloat x => Ret x
  | PyInt z =>
      match Float64.of_Z z with
      | S754_infinity _ => Raise OverflowError
      | x => Ret x
      end
  end.

End Py.
Import Py.

(* ===================================================================== *)
(** * [format_number] *)
(* ===================================================================== *)

Definition yi : string := "亿".
Definition wan : string := "万".

Definition c100000000 : spec_float := Float64.of_Z 100000000.
Definition c10000 : spec_float := Float64.of_Z 10000.

(** Lines 17 to 26. *)
Definition format_number (num : value) : outcome string :=
  if isna num then Ret "0"
  else
    match float num with
    | Raise e => Raise e
    | Ret num =>
        if Float64.ge num c100000000 then
          Ret (Float64.fixed2 (Float64.div num c100000000) +:+ yi)
        else if Float64.ge num c10000 then
          Ret (Float64.fixed2 (Float64.div num c10000) +:+ wan)
        else
          Ret (Float64.fixed2 num)
    end.

(** The policy as the specification words it, on the magnitude of the value:
    the same three branches, entered on [|num|]. *)
Definition format_number_by_magnitude (num : value) : outcome string :=
  if isna num then Ret "0"
  else
    match float num with
    | Raise e => Raise e
    | Ret num =>
        if Float64.ge (Float64.abs num) c100000000 then
          Ret (Float64.fixed2 (Float64.div num c100000000) +:+ yi)
        else if Float64.ge (Float64.abs num) c10000 then
          Ret (Float64.fixed2 (Float64.div num c10000) +:+ wan)
        else
          Ret (Float64.fixed2 num)
    end.

(* ===================================================================== *)
(** * Dates *)
(* ===================================================================== *)

(** A [datetime] is used for its date only.  A date is its proleptic
    Gregorian ordinal, as [date.toordinal] gives it: day 1 is 0001-01-01.
    The conversions follow CPython's [_pydatetime]. *)
Module Calendar.

Definition MINORD : Z := 1.          (* date.min, 0001-01-01 *)
Definition MAXORD : Z := 3652059.    (* date.max, 9999-12-31 *)

Definition DI400Y : Z := 146097.
Definition DI100Y : Z := 36524.
Definition DI4Y : Z := 1461.

Definition DAYS_IN_MONTH : list Z :=
  [-1; 31; 28; 31; 30; 31; 30; 31; 31; 30; 31; 30; 31].
Definition DAYS_BEFORE_MONTH : list Z :=
  [-1; 0; 31; 59; 90; 120; 151; 181; 212; 243; 273; 304; 334].

Definition tab (t : list Z) (i : Z) : Z := nth (Z.to_nat i) t 0.

(** [_ord2ymd] *)
Definition ord2ymd (ordinal : Z) : Z * Z * Z :=
  let n := ordinal - 1 in
  let n400 := n / DI400Y in
  let n := n mod DI400Y in
  let year := n400 * 400 + 1 in
  let n100 := n / DI100Y in
  let n := n mod DI100Y in
  let n4 := n / DI4Y in
  let n := n mod DI4Y in
  let n1 := n / 365 in
  let n := n mod 365 in
  let year := year + n100 * 100 + n4 * 4 + n1 in
  if (n1 =? 4) || (n100 =? 4) then (year - 1, 12, 31)
  else
    let leapyear := (n1 =? 3) && (negb (n4 =? 24) || (n100 =? 3)) in
    let month := Z.shiftr (n + 50) 5 in
    let preceding :=
      tab DAYS_BEFORE_MONTH month + (if (2 <? month) && leapyear then 1 else 0) in
    if n <? preceding then
      let month := month - 1 in
      let preceding :=
        preceding
        - (tab DAYS_IN_MONTH month + (if (month =? 2) && leapyear then 1 else 0)) in
      (year, month, n - preceding + 1)
    else (year, month, n - preceding + 1).

(** [date.weekday]: Monday is 0. *)
Definition weekday (ordinal : Z) : Z := (ordinal + 6) mod 7.

(** [d - timedelta(days=i)]; a result outside [date.min .. date.max] raises. *)
Definition sub_days (ordinal i : Z) : outcome Z :=
  let d := ordinal - i in
  if (MINORD <=? d) && (d <=? MAXORD) then Ret d else Raise OverflowError.

(** A decimal field padded with zeros to [width] digits. *)
Definition zero_pad (width : nat) (n : Z) : string :=
  let s := Float64.digits n in
  String.concat EmptyString (replicate (width - String.length s) "0") +:+ s.

(** [strftime("%Y%m%d")].  The years of interest have four digits. *)
Definition strftime_compact (ordinal : Z) : string :=
  let '(y, m, d) := ord2ymd ordinal in
  zero_pad 4 y +:+ zero_pad 2 m +:+ zero_pad 2 d.

(** [strftime("%Y-%m-%d")] *)
Definition strftime_dashed (ordinal : Z) : string :=
  let '(y, m, d) := ord2ymd ordinal in
  zero_pad 4 y +:+ "-" +:+ zero_pad 2 m +:+ "-" +:+ zero_pad 2 d.

End Calendar.

(* ===================================================================== *)
(** * Records *)
(* ===================================================================== *)

(** A cell of the net buy column as the data source delivers it: usually a
    number, possibly text, possibly missing. *)
Inductive cell : Type :=
| CNum (z : Z)
| CStr (s : string)
| CMissing.

(** One row of the disclosure detail frame.  [K] is the type of the net buy
    column: [cell] as fetched, [option Z] once coerced to numeric, where
    [None] is NaN.  Amounts are whole numbers and are added exactly. *)
Record detail_row (K : Type) : Type := DetailRow {
  code : string;          (* 代码 *)
  name : string;          (* 名称 *)
  close : string;         (* 收盘价, as printed *)
  change : string;        (* 涨跌幅, as printed *)
  net_buy : K;            (* 龙虎榜净买额 *)
  turnover : string;      (* 换手率, as printed *)
  reason : string         (* 上榜原因 *)
}.
Arguments DetailRow {K}.
Arguments code {K}.
Arguments name {K}.
Arguments close {K}.
Arguments change {K}.
Arguments net_buy {K}.
Arguments turnover {K}.
Arguments reason {K}.

(** One row of the institutional summary frame. *)
Record jg_row : Type := JgRow {
  jg_code : string;
  jg_buy : option Z       (* 机构买入总额; [None] is NaN *)
}.

(** One row of the branch frame. *)
Record yyb_row : Type := YybRow {
  yyb_name : string;      (* 营业部名称 *)
  yyb_buy : option Z      (* 买入总金额; [None] is NaN *)
}.

(** A frame is the list of its rows, in fetch order; [df.empty] is [nil]. *)
Definition df_empty {A : Type} (df : list A) : bool :=
  match df with [] => true | _ => false end.

(** [df is None or df.empty] *)
Definition none_or_empty {A : Type} (df : option (list A)) : bool :=
  match df with None => true | Some rows => df_empty rows end.

(* ===================================================================== *)
(** * Effects *)
(* ===================================================================== *)

(** What the data source does when asked for a frame: it returns a frame or
    [None], or the call raises. *)
Inductive response (A : Type) : Type :=
| Returns (df : option A)
| Fails (e : exn).
Arguments Returns {A} df.
Arguments Fails {A} e.

(** The three AkShare endpoints, each called with a start and an end date. *)
Record akshare : Type := Akshare {
  stock_lhb_detail_em : string -> string -> response (list (detail_row cell));
  stock_lhb_jgmmtj_em : string -> string -> response (list jg_row);
  stock_lhb_hyyyb_em : string -> string -> response (list yyb_row)
}.

Record chat_request : Type := ChatRequest {
  api_key : string;
  base_url : string;
  model : string;
  system_content : string;
  user_content : string;
  temperature : spec_float
}.

(** The calls that leave the program, in the order they are made. *)
Inductive event : Type :=
| AkDetail (start_date end_date : string)
| AkJg (start_date end_date : string)
| AkYyb (start_date end_date : string)
| St (widget : string) (body : string)
| StMetric (label : string) (shown : string)
| StDataframe (table : list (list string))
| ChatCreate (req : chat_request).

Module Eff.

(** A computation reads and extends the log of calls and ends with a value
    or an exception.  The log survives an exception. *)
Definition prog (A : Type) : Type := list event -> outcome A * list event.

Definition ret {A : Type} (a : A) : prog A := fun log => (Ret a, log).

Definition raise {A : Type} (e : exn) : prog A := fun log => (Raise e, log).

Definition bind {A B : Type} (m : prog A) (k : A -> prog B) : prog B :=
  fun log =>
    match m log with
    | (Ret a, log') => k a log'
    | (Raise e, log') => (Raise e, log')
    end.

(** [try: body  except ...: handler] *)
Definition try_except {A : Type} (body : prog A) (handler : exn -> prog A) : prog A :=
  fun log =>
    match body log with
    | (Ret a, log') => (Ret a, log')
    | (Raise e, log') => handler e log'
    end.

Definition emit (ev : event) : prog unit := fun log => (Ret tt, log ++ [ev]).

Definition lift {A : Type} (o : outcome A) : prog A := fun log => (o, log).

(** A call to the data source: logged, then answered. *)
Definition ask {A : Type} (ev : event) (r : response A) : prog (option A) :=
  fun log =>
    match r with
    | Returns df => (Ret df, log ++ [ev])
    | Fails e => (Raise e, log ++ [ev])
    end.

Definition run {A : Type} (m : prog A) : outcome A * list event := m [].

End Eff.
Import Eff.

#[global] Instance prog_ret : MRet prog := @ret.
#[global] Instance prog_bind : MBind prog := fun A B k m => bind m k.

(** [str(e)] *)
Definition str_exn (e : exn) : string :=
  match e with
  | OverflowError => "OverflowError"
  | IndexError => "single positional indexer is out-of-bounds"
  | KeyError msg => "'" +:+ msg +:+ "'"
  | Exception msg => msg
  end.

(* ===================================================================== *)
(** * Loading one day: [get_lhb_data] *)
(* ===================================================================== *)

Definition day_data : Type :=
  (option (list (detail_row cell)) * option (list jg_row) * option (list yyb_row))%type.

(** Lines 30 to 50.  The three fetches stand in one [try] block; the cache
    decorator only replays a result and is not part of the model. *)
Definition get_lhb_data (ak : akshare) (date_str : string) : prog day_data :=
  try_except
    (detail_df ← ask (AkDetail date_str date_str)
                     (stock_lhb_detail_em ak date_str date_str);
     if none_or_empty detail_df then mret (None, None, None)
     else
       jg_df ← ask (AkJg date_str date_str)
                   (stock_lhb_jgmmtj_em ak date_str date_str);
       yyb_df ← ask (AkYyb date_str date_str)
                    (stock_lhb_hyyyb_em ak date_str date_str);
       mret (detail_df, jg_df, yyb_df))
    (fun e =>
       emit (St "error" ("获取数据时出错: " +:+ str_exn e));;
       mret (None, None, None)).

(* ===================================================================== *)
(** * Looking for the latest day with data: [find_latest_data] *)
(* ===================================================================== *)

Definition week_days : list string :=
  ["周一"; "周二"; "周三"; "周四"; "周五"; "周六"; "周日"].

Definition found : Type := (option string * option string)%type.

(** [range(n)] *)
Definition range (n : nat) : list Z := map Z.of_nat (seq 0 n).

(** The text shown for a day: the dashed date and the weekday in brackets. *)
Definition display (check_date : Z) : string :=
  Calendar.strftime_dashed check_date +:+ "（"
  +:+ nth (Z.to_nat (Calendar.weekday check_date)) week_days EmptyString +:+ "）".

(** The body of the loop for the offsets still to try (lines 56 to 74).  The
    [try] block holds the probe and the [return]; the bare [except] drops
    whatever the probe raises. *)
Fixpoint scan (ak : akshare) (today : Z) (offsets : list Z) : prog found :=
  match offsets with
  | [] => mret (None, None)
  | i :: older =>
      check_date ← lift (Calendar.sub_days today i);
      let date_str := Calendar.strftime_compact check_date in
      hit ← try_except
              (df ← ask (AkDetail date_str date_str)
                        (stock_lhb_detail_em ak date_str date_str);
               if negb (none_or_empty df)
               then mret (Some (Some date_str, Some (display check_date)))
               else mret None)
              (fun _ => mret None);
      match hit with
      | Some result => mret result
      | None => scan ak today older
      end
  end.

Definition find_latest_data (today : Z) (ak : akshare) : prog found :=
  scan ak today (range 10).

(* ===================================================================== *)
(** * The three metrics of [main] *)
(* ===================================================================== *)

(** [Series.unique]: the distinct values, each at its first occurrence. *)
Fixpoint unique_from (seen : list string) (col : list string) : list string :=
  match col with
  | [] => []
  | x :: rest =>
      if bool_decide (x ∈ seen) then unique_from seen rest
      else x :: unique_from (x :: seen) rest
  end.

Definition unique (col : list string) : list string := unique_from [] col.

(** Line 100. *)
Definition total_stocks {K : Type} (detail_df : list (detail_row K)) : nat :=
  length (unique (map code detail_df)).

(** [Series.sum] on a column of whole amounts: NaN cells are skipped, the
    others added exactly. *)
Definition sum (col : list (option Z)) : Z :=
  fold_left (fun acc x => acc + default 0 x) col 0.

(** Lines 103 to 105. *)
Definition jg_buy_total (jg_df : option (list jg_row)) : Z :=
  match jg_df with
  | Some rows => if negb (df_empty rows) then sum (map jg_buy rows) else 0
  | None => 0
  end.

Fixpoint starts_with (s pat : string) {struct pat} : bool :=
  match pat, s with
  | EmptyString, _ => true
  | String a pat', String b s' => Ascii.eqb a b && starts_with s' pat'
  | String _ _, EmptyString => false
  end.

(** [Series.str.contains] for a pattern without regular expression syntax:
    the pattern occurs somewhere in the text. *)
Fixpoint contains (s pat : string) : bool :=
  starts_with s pat
  || match s with
     | EmptyString => false
     | String _ s' => contains s' pat
     end.

(** [df[mask]]: the rows whose mask entry is true. *)
Definition boolean_index {A : Type} (df : list A) (mask : list bool) : list A :=
  map fst (filter (fun p => snd p = true) (zip df mask)).

Definition gutong : string := "股通".

(** Lines 108 to 111. *)
Definition waizi_buy_total (yyb_df : option (list yyb_row)) : Z :=
  match yyb_df with
  | Some rows =>
      if negb (df_empty rows) then
        let waizi_mask := map (fun r => contains (yyb_name r) gutong) rows in
        sum (map yyb_buy (boolean_index rows waizi_mask))
      else 0
  | None => 0
  end.


(* ===================================================================== *)
(** * Ranking *)
(* ===================================================================== *)

(** [pd.to_numeric(..., errors='coerce')] on one cell; [parse] is the number
    reader of pandas, [None] where the text is no number. *)
Definition to_numeric (parse : string -> option Z) (c : cell) : option Z :=
  match c with
  | CNum z => Some z
  | CStr s => parse s
  | CMissing => None
  end.

(** Line 130: the net buy column is replaced by its numeric coercion. *)
Definition coerce (parse : string -> option Z) (df : list (detail_row cell))
  : list (detail_row (option Z)) :=
  map (fun r => DetailRow (code r) (name r) (close r) (change r)
                          (to_numeric parse (net_buy r)) (turnover r) (reason r))
      df.

(** [df.take(indexer)]: the rows at the given positions, in that order.  A
    position outside the frame has no row; the indexer of a sort has none. *)
Definition take_rows {A : Type} (indexer : list nat) (df : list A) : list A :=
  omap (fun i => df !! i) indexer.

(** [sort_values(by='龙虎榜净买额', ascending=False)].  The sorting itself is
    pandas' (default kind, missing values last): [engine] gives the positions
    of the rows in the order it chose. *)
Definition sort_values (engine : list (option Z) -> list nat)
    (df : list (detail_row (option Z))) : list (detail_row (option Z)) :=
  take_rows (engine (map net_buy df)) df.

(** [a] may stand before [b] in descending order with missing values last. *)
Definition precedes (a b : option Z) : bool :=
  match a, b with
  | _, None => true
  | None, Some _ => false
  | Some x, Some y => y <=? x
  end.

Fixpoint descending (keys : list (option Z)) : bool :=
  match keys with
  | a :: (b :: _) as rest => precedes a b && descending rest
  | _ => true
  end.

(** What pandas promises of the engine on a key column: every position once,
    the keys in descending order, the missing ones last. *)
Definition is_argsort (keys : list (option Z)) (indexer : list nat) : Prop :=
  indexer ≡ₚ seq 0 (length keys) ∧ descending (take_rows indexer keys) = true.

(** Rows of equal key keep their fetch order. *)
Definition stable (keys : list (option Z)) (indexer : list nat) : Prop :=
  ∀ p q i j : nat,
    (p < q)%nat → indexer !! p = Some i → indexer !! q = Some j →
    keys !! i = keys !! j → (i < j)%nat.

(** An engine that keeps pandas' promise on every column: it inserts the
    positions one by one into the ordered prefix, a position after the
    earlier positions of equal key. *)
Fixpoint insert_position (before : option Z -> option Z -> bool)
    (keys : list (option Z)) (i : nat) (ordered : list nat) : list nat :=
  match ordered with
  | [] => [i]
  | j :: rest =>
      if before (keys !!! i) (keys !!! j) then i :: j :: rest
      else j :: insert_position before keys i rest
  end.

Definition insertion_engine (before : option Z -> option Z -> bool)
    (keys : list (option Z)) : list nat :=
  fold_left (fun ordered i => insert_position before keys i ordered)
            (seq 0 (length keys)) [].

Definition strictly_precedes (a b : option Z) : bool :=
  precedes a b && negb (precedes b a).

Definition stable_engine : list (option Z) -> list nat :=
  insertion_engine strictly_precedes.

(** ** The engine as pandas and numpy have it

    [pandas.core.sorting.nargsort] with [ascending=False] and
    [na_position='last']: the positions of the missing keys are set aside,
    the numbers and their positions are reversed, numpy's argsort orders the
    numbers, its result is reversed again, and the set-aside positions are
    appended. *)

(** The numbers with their positions, and the positions of the missing keys,
    both in fetch order, counting the positions from [start]. *)
Fixpoint split_nan (start : nat) (items : list (option Z)) : list (nat * Z) * list nat :=
  match items with
  | [] => ([], [])
  | k :: rest =>
      let '(non_nan, nan_idx) := split_nan (S start) rest in
      match k with
      | Some z => ((start, z) :: non_nan, nan_idx)
      | None => (non_nan, start :: nan_idx)
      end
  end.

Definition nargsort (argsort : list Z -> list nat) (items : list (option Z)) : list nat :=
  let '(non_nan, nan_idx) := split_nan 0 items in
  let non_nans := rev (map snd non_nan) in
  let non_nan_idx := rev (map fst non_nan) in
  let indexer := take_rows (argsort non_nans) non_nan_idx in
  rev indexer ++ nan_idx.

(** numpy's argsort of 64-bit keys where it is vectorised (x86-simd-sort): an
    array of at most four keys is loaded into one register, the free lanes
    filled with the largest value, and goes through the comparator steps of
    the bitonic network: neighbours, the mirrored pairs, neighbours again.
    The position travels with its key.  The further steps of a register of
    eight lanes compare lanes that are in order by then and move nothing. *)
Module Simd.

Inductive lane : Type :=
| Lane (key : Z) (arg : nat)
| Pad.

Definition lt (a b : lane) : bool :=
  match a, b with
  | Lane x _, Lane y _ => x <? y
  | Lane _ _, Pad => true
  | Pad, _ => false
  end.

(** One comparator: the smaller key goes to the low lane, the larger to the
    high lane; lanes of equal key keep what they hold. *)
Definition cmp_merge (lo hi : lane) : lane * lane :=
  if lt hi lo then (hi, lo) else (lo, hi).

Definition sort_reg (r : lane * lane * lane * lane) : lane * lane * lane * lane :=
  let '(a, b, c, d) := r in
  let '(a, b) := cmp_merge a b in
  let '(c, d) := cmp_merge c d in
  let '(a, d) := cmp_merge a d in
  let '(b, c) := cmp_merge b c in
  let '(a, b) := cmp_merge a b in
  let '(c, d) := cmp_merge c d in
  (a, b, c, d).

Definition load (keys : list Z) (i : nat) : lane :=
  match keys !! i with
  | Some k => Lane k i
  | None => Pad
  end.

Definition arg_of (l : lane) : option nat :=
  match l with
  | Lane _ i => Some i
  | Pad => None
  end.

(** The sorted positions of at most four keys. *)
Definition argsort_n (keys : list Z) : list nat :=
  let '(a, b, c, d) := sort_reg (load keys 0, load keys 1, load keys 2, load keys 3) in
  omap arg_of (firstn (length keys) [a; b; c; d]).

End Simd.

(** numpy's [argsort(kind='quicksort')]: nothing to do for fewer than two
    keys, the network for up to four; [longer] is the sort of longer arrays,
    which is not modelled. *)
Definition numpy_argsort (longer : list Z -> list nat) (keys : list Z) : list nat :=
  if (length keys <=? 1)%nat then seq 0 (length keys)
  else if (length keys <=? 4)%nat then Simd.argsort_n keys
  else longer keys.

Fixpoint ascending (keys : list Z) : bool :=
  match keys with
  | a :: (b :: _) as rest => (a <=? b) && ascending rest
  | _ => true
  end.

(** What numpy promises of an argsort: every position once, the keys in
    ascending order. *)
Definition is_ascending_argsort (keys : list Z) (positions : list nat) : Prop :=
  positions ≡ₚ seq 0 (length keys) ∧ ascending (take_rows positions keys) = true.

(** The numbers that [nargsort] hands to numpy: the keys that are numbers,
    the last first. *)
Definition non_nans (items : list (option Z)) : list Z :=
  rev (map snd (fst (split_nan 0 items))).

(** [df.iloc[0]] *)
Definition iloc0 {A : Type} (df : list A) : outcome A :=
  match df with
  | r :: _ => Ret r
  | [] => Raise IndexError
  end.

(** Line 132. *)
Definition top1_stock (engine : list (option Z) -> list nat)
    (detail_df : list (detail_row (option Z))) : outcome (detail_row (option Z)) :=
  iloc0 (sort_values engine detail_df).

(** [df.head(n)] *)
Definition head {A : Type} (n : nat) (df : list A) : list A := firstn n df.

(** Line 157, before the columns are selected. *)
Definition top10_df (engine : list (option Z) -> list nat)
    (detail_df : list (detail_row (option Z))) : list (detail_row (option Z)) :=
  head 10 (sort_values engine detail_df).

(** A numeric cell as a Python scalar. *)
Definition scalar (k : option Z) : value :=
  match k with
  | Some z => PyInt z
  | None => PyFloat S754_nan
  end.

(* ===================================================================== *)
(** * The page: [main] *)
(* ===================================================================== *)

(** The five columns handed to the model, under their shorter names. *)
Record ai_row : Type := AiRow {
  ai_name : string;            (* 股票名 *)
  ai_code : string;            (* 代码 *)
  ai_net_buy : option Z;       (* 净买入 *)
  ai_change : string;          (* 涨幅 *)
  ai_turnover : string         (* 换手率 *)
}.

(** Everything outside the program: the clock, the data source, pandas'
    number reader and sorting engine, the button, the secrets file with the
    message of the [KeyError] that Streamlit raises for a missing entry, the
    table printer and the chat endpoint. *)
Record world : Type := World {
  today : Z;
  ak : akshare;
  parse_number : string -> option Z;
  engine : list (option Z) -> list nat;
  button : bool;
  secrets : option (gmap string (gmap string string));
  missing_secret : string -> string;
  to_markdown : list ai_row -> string;
  chat_completions_create : chat_request -> outcome string
}.

Definition dq : string := String (Ascii.ascii_of_N 34) EmptyString.

Definition default_model : string := "gpt-3.5-turbo".

Definition secrets_error : string :=
  "请先配置 OpenAI 密钥！请在项目根目录下创建 .streamlit/secrets.toml 文件。".

Definition secrets_example : string :=
  "
            **配置示例 (.streamlit/secrets.toml):**
            ```toml
            [openai]
            api_key = " +:+ dq +:+ "sk-..." +:+ dq +:+ "
            base_url = " +:+ dq +:+ "https://api.openai.com/v1" +:+ dq +:+ "  # 或其他兼容的 Base URL
            ```
            ".

Definition system_prompt : string :=
  "
        你是一位拥有 20 年经验的 A 股资深游资分析师。
        请根据提供的龙虎榜净买入前 10 名数据，对每只上榜股票进行简短点评，并在最后给出市场总结。
        
        要求：
        1. 逐个点评：对每一只股票，用一句话点评其资金性质（机构/游资/散户）、板块地位或技术形态。
        2. 市场总结：在点评完所有股票后，总结今日市场情绪（情绪高潮/分歧/退潮）和主线热点。
        3. 风格犀利、简练、不要说废话。
        4. 使用 Markdown 格式输出。
        ".

Definition user_prompt (data_str : string) : string :=
  "
        这是今日龙虎榜净买入前 10 名的数据：
        " +:+ data_str +:+ "
        
        请开始你的分析：
        ".

(** [section[key]] on a section of [st.secrets]: a missing key raises
    [KeyError] with the message Streamlit writes for it. *)
Definition getitem (message : string -> string) (mapping : gmap string string)
    (key : string) : outcome string :=
  match mapping !! key with
  | Some v => Ret v
  | None => Raise (KeyError (message key))
  end.

(** The body of [if st.button(...)], lines 186 to 270. *)
Definition ai_analysis (w : world) (detail_df : list (detail_row (option Z))) : prog unit :=
  let secrets_missing :=
    match secrets w with
    | Some s => match s !! "openai" with Some _ => false | None => true end
    | None => true             (* no secrets file: the lookup raises *)
    end in
  if secrets_missing then
    emit (St "error" secrets_error);;
    emit (St "info" secrets_example)
  else
    let openai := default ∅ (secrets w ≫= (.!! "openai")) in
    let ai_df :=
      map (fun r => AiRow (name r) (code r) (net_buy r) (change r) (turnover r))
          (head 10 (sort_values (engine w) detail_df)) in
    let data_str := to_markdown w ai_df in
    try_except
      (key ← lift (getitem (missing_secret w) openai "api_key");
       url ← lift (getitem (missing_secret w) openai "base_url");
       let model_name := default default_model (openai !! "model") in
       let req := ChatRequest key url model_name system_prompt (user_prompt data_str)
                              (Float64.div (Float64.of_Z 7) (Float64.of_Z 10)) in
       emit (ChatCreate req);;
       analysis_result ← lift (chat_completions_create w req);
       emit (St "success" "分析完成！");;
       emit (St "markdown" "### 🧠 资深游资点评");;
       emit (St "info" analysis_result))
      (fun e => emit (St "error" ("AI 分析请求失败: " +:+ str_exn e))).

(** [top10_show]: the five shown columns, the last through [format_number]. *)
Fixpoint top10_show (top10 : list (detail_row (option Z))) : outcome (list (list string)) :=
  match top10 with
  | [] => Ret []
  | r :: rest =>
      match format_number (scalar (net_buy r)) with
      | Raise e => Raise e
      | Ret shown =>
          match top10_show rest with
          | Raise e => Raise e
          | Ret rows => Ret ([name r; code r; close r; change r; shown] :: rows)
          end
      end
  end.

(** [if not date_str] *)
Definition falsy (s : option string) : bool :=
  match s with
  | None => true
  | Some s => bool_decide (s = EmptyString)
  end.

(** [str(x)] for an optional text *)
Definition str_opt (s : option string) : string := default "None" s.

Definition nl2 : string := "

".

(** Lines 77 to 270, spinners left out. *)
Definition main (w : world) : prog unit :=
  emit (St "title" "📈 东方财富龙虎榜分析看板");;
  '(date_str, date_display) ← find_latest_data (today w) (ak w);
  if falsy date_str then
    emit (St "error" "最近10天没有找到龙虎榜数据，请检查网络或稍后再试。")
  else
    emit (St "success" ("当前展示数据日期：**" +:+ str_opt date_display +:+ "**"));;
    '(detail_df, jg_df, yyb_df) ← get_lhb_data (ak w) (str_opt date_str);
    match detail_df with
    | None => emit (St "error" "无法获取详细数据。")
    | Some detail_df =>
        emit (St "subheader" "📊 市场概览");;
        emit (StMetric "上榜个股"
                (Float64.digits (Z.of_nat (total_stocks detail_df)) +:+ " 只"));;
        jg_shown ← lift (format_number (PyInt (jg_buy_total jg_df)));
        emit (StMetric "机构买入" jg_shown);;
        waizi_shown ← lift (format_number (PyInt (waizi_buy_total yyb_df)));
        emit (StMetric "外资买入" waizi_shown);;
        emit (St "markdown" "---");;
        emit (St "subheader" "👑 榜一大哥");;
        let detail_df := coerce (parse_number w) detail_df in
        top1 ← lift (top1_stock (engine w) detail_df);
        top1_shown ← lift (format_number (scalar (net_buy top1)));
        emit (St "info"
                ("**" +:+ name top1 +:+ "** (" +:+ code top1 +:+ ")" +:+ nl2
                 +:+ "💰 净买入：**" +:+ top1_shown +:+ "**" +:+ nl2
                 +:+ "📈 涨跌幅：" +:+ change top1 +:+ "%" +:+ nl2
                 +:+ "📝 上榜原因：" +:+ reason top1));;
        emit (St "markdown" "---");;
        emit (St "subheader" "📋 净买入 TOP 10");;
        table ← lift (top10_show (top10_df (engine w) detail_df));
        emit (StDataframe table);;
        emit (St "caption" "数据来源：东方财富网 | 数据更新可能有延迟");;
        emit (St "markdown" "---");;
        emit (St "subheader" "🤖 AI 深度分析");;
        if button w then ai_analysis w detail_df else mret tt
    end.

(* ===================================================================== *)
(** * Vocabulary of the statements *)
(* ===================================================================== *)

(** Text in plain ASCII: no byte of a multi-byte character. *)
Fixpoint plain (s : string) : bool :=
  match s with
  | EmptyString => true
  | String a rest => (Ascii.N_of_ascii a <? 128)%N && plain rest
  end.

(** The date tried at offset [i], as the data source receives it. *)
Definition candidate (today i : Z) : string :=
  Calendar.strftime_compact (today - i).

Definition probe_event (today i : Z) : event :=
  AkDetail (candidate today i) (candidate today i).

(** The candidate at offset [i] is a date of the calendar. *)
Definition in_calendar (today i : Z) : Prop :=
  Calendar.MINORD <= today - i <= Calendar.MAXORD.

(** The probe of a date finds data: the call returns a frame with rows. *)
Definition has_data (ak : akshare) (date_str : string) : bool :=
  match stock_lhb_detail_em ak date_str date_str with
  | Returns df => negb (none_or_empty df)
  | Fails _ => false
  end.

(** The name of the branch carries the marker of the connect channels. *)
Definition has_marker (r : yyb_row) : Prop := contains (yyb_name r) gutong = true.

#[global] Instance has_marker_dec (r : yyb_row) : Decision (has_marker r) :=
  decide (contains (yyb_name r) gutong = true).

(** The keys at the positions of an indexer, for positions inside the column. *)
Definition keys_at (keys : list (option Z)) (indexer : list nat) : list (option Z) :=
  map (fun i => keys !!! i) indexer.

(** Positions come in descending order of key and, for equal keys, in
    ascending order of position. *)
Definition stable_order (keys : list (option Z)) (i j : nat) : Prop :=
  strictly_precedes (keys !!! i) (keys !!! j) = true
  \/ (keys !!! i = keys !!! j /\ (i < j)%nat).

(** The event is a call to the chat endpoint. *)
Definition is_chat_call (ev : event) : bool :=
  match ev with
  | ChatCreate _ => true
  | _ => false
  end.

(* ===================================================================== *)
(** * Sample worlds *)
(* ===================================================================== *)

Module Sample.

(** Tuesday 2026-11-03. *)
Definition tuesday : Z := 739923.

Definition row (code name : string) (net : cell) : detail_row cell :=
  DetailRow code name "10.00" "1.00" net "5.00" "日涨幅偏离值达7%的证券".

(** Twelve records on eleven codes; 600519 is listed for two reasons.  One
    net buy amount is text that is no number, one is missing. *)
Definition detail : list (detail_row cell) :=
  [ row "600519" "贵州茅台" (CNum 5);
    row "000001" "平安银行" (CNum 100);
    row "000002" "万科A" (CNum (-3));
    row "600519" "贵州茅台" (CNum 100);
    row "300750" "宁德时代" (CStr "--");
    row "601318" "中国平安" (CNum 250000000);
    row "000858" "五粮液" CMissing;
    row "002594" "比亚迪" (CNum (-120000000));
    row "600036" "招商银行" (CNum 42000);
    row "601012" "隆基绿能" (CStr "77");
    row "000333" "美的集团" (CNum 0);
    row "600276" "恒瑞医药" (CNum 9999) ].

Definition jg : list jg_row :=
  [ JgRow "600519" (Some 30000000); JgRow "000001" (Some 20000000);
    JgRow "000002" None ].

Definition yyb : list yyb_row :=
  [ YybRow "深股通专用" (Some 70000000);
    YybRow "中信证券上海分公司" (Some 900000000);
    YybRow "沪股通专用" (Some 50000000);
    YybRow "国泰君安总部" (Some 1);
    YybRow "东方财富拉萨团结路" None ].

Definition on_date {A : Type} (day asked : string) (r : response A) : response A :=
  if String.eqb asked day then r else Returns None.

(** The data source on that Tuesday: the call for the day itself times out,
    Monday's frame is empty, Sunday has none, Saturday 2026-10-31 has data. *)
Definition detail_endpoint (start_date end_date : string)
  : response (list (detail_row cell)) :=
  if String.eqb start_date "20261103" then Fails (Exception "timed out")
  else if String.eqb start_date "20261102" then Returns (Some [])
  else if String.eqb start_date "20261031" then Returns (Some detail)
  else Returns None.

Definition source : akshare :=
  Akshare detail_endpoint
          (fun s _ => on_date "20261031" s (Returns (Some jg)))
          (fun s _ => on_date "20261031" s (Returns (Some yyb))).

(** The same, with the institutional endpoint raising. *)
Definition source_jg_down : akshare :=
  Akshare detail_endpoint
          (fun _ _ => Fails (Exception "connection reset"))
          (fun s _ => on_date "20261031" s (Returns (Some yyb))).

(** The same, with both secondary endpoints answering without rows. *)
Definition source_secondary_empty : akshare :=
  Akshare detail_endpoint
          (fun _ _ => Returns (Some []))
          (fun _ _ => Returns None).

(** A data source that is down. *)
Definition source_down : akshare :=
  Akshare (fun _ _ => Fails (Exception "connection refused"))
          (fun _ _ => Fails (Exception "connection refused"))
          (fun _ _ => Fails (Exception "connection refused")).

(** A number reader for unsigned decimal text. *)
Fixpoint read_digits (acc : Z) (s : string) : option Z :=
  match s with
  | EmptyString => Some acc
  | String a rest =>
      let d := Z.of_N (Ascii.N_of_ascii a) - 48 in
      if (0 <=? d) && (d <=? 9) then read_digits (10 * acc + d) rest else None
  end.

Definition parse (s : string) : option Z :=
  match s with
  | EmptyString => None
  | _ => read_digits 0 s
  end.

Definition print_table (rows : list ai_row) : string :=
  String.concat "|" (map ai_name rows).

Definition endpoint (req : chat_request) : outcome string := Ret "情绪分歧。".

Definition openai_section : gmap string string :=
  <["api_key" := "sk-test"]> (<["base_url" := "https://api.openai.com/v1"]> ∅).

(** Streamlit's message for a missing entry of the secrets. *)
Definition no_key (key : string) : string :=
  "st.secrets has no key " +:+ dq +:+ key +:+ dq
  +:+ ". Did you forget to add it to secrets.toml, mount it to secret directory, or the app settings on Streamlit Cloud? More info: https://docs.streamlit.io/deploy/streamlit-community-cloud/deploy-your-app/secrets-management".

Definition world_with (src : akshare) (click : bool)
    (secret : option (gmap string (gmap string string))) : world :=
  World tuesday src parse stable_engine click secret no_key print_table endpoint.

(** No secrets file at all. *)
Definition unconfigured : world := world_with source true None.

(** Key and base URL, no model name. *)
Definition configured : world :=
  world_with source true (Some (<["openai" := openai_section]> ∅)).

(** The key is there, the base URL is not. *)
Definition half_configured : world :=
  world_with source true
    (Some (<["openai" := <["api_key" := "sk-test"]> ∅]> ∅)).

(** The ranking example: net buy amounts 5, 100, -3, 100. *)
Definition ranked_row (name : string) (net : option Z) : detail_row (option Z) :=
  DetailRow name name "10.00" "1.00" net "5.00" "日涨幅偏离值达7%的证券".

Definition tied : list (detail_row (option Z)) :=
  [ ranked_row "A" (Some 5); ranked_row "B" (Some 100);
    ranked_row "C" (Some (-3)); ranked_row "D" (Some 100) ].

Definition tied_keys : list (option Z) := map net_buy tied.

(** A second ranking example: net buy amounts 1, 1, 2, 100. *)
Definition tied_low : list (detail_row (option Z)) :=
  [ ranked_row "A" (Some 1); ranked_row "B" (Some 1);
    ranked_row "C" (Some 2); ranked_row "D" (Some 100) ].

(** An ascending argsort for arrays of more than four keys, by insertion. *)
Fixpoint insert_ascending (keys : list Z) (i : nat) (ordered : list nat) : list nat :=
  match ordered with
  | [] => [i]
  | j :: rest =>
      if (keys !!! i <? keys !!! j) then i :: j :: rest
      else j :: insert_ascending keys i rest
  end.

Definition long_argsort (keys : list Z) : list nat :=
  fold_left (fun ordered i => insert_ascending keys i ordered) (seq 0 (length keys)) [].

(** numpy's argsort with that stand-in for the longer arrays. *)
Definition numpy : list Z -> list nat := numpy_argsort long_argsort.

End Sample.

(* ===================================================================== *)
(** * Vocabulary of the further properties *)
(* ===================================================================== *)


(** What [get_lhb_data] shows when a fetch raises. *)
Definition load_error_event (e : exn) : event :=
  St "error" ("获取数据时出错: " +:+ str_exn e).

(** The event is a call to the data source. *)
Definition is_fetch (ev : event) : bool :=
  match ev with
  | AkDetail _ _ | AkJg _ _ | AkYyb _ _ => true
  | _ => false
  end.

(** The calls to the data source in a log, in order. *)
Definition fetches (log : list event) : list event :=
  filter (fun ev => is_fetch ev = true) log.

(** The exception of the first fetch of a load that raises, if one does: the
    secondary fetches are made only after a disclosure frame with rows, the
    branch fetch only after the institutional fetch has returned. *)
Definition first_failure (ak : akshare) (date_str : string) : option exn :=
  match stock_lhb_detail_em ak date_str date_str with
  | Fails e => Some e
  | Returns df =>
      if none_or_empty df then None
      else
        match stock_lhb_jgmmtj_em ak date_str date_str with
        | Fails e => Some e
        | Returns _ =>
            match stock_lhb_hyyyb_em ak date_str date_str with
            | Fails e => Some e
            | Returns _ => None
            end
        end
  end.

(** The request of the AI panel for a key, a base URL and the [openai]
    section they come from: the configured model or the default, the two
    prompts, the table of the first ten rows of the ranking, temperature
    0.7. *)
Definition ai_request (w : world) (detail_df : list (detail_row (option Z)))
    (openai : gmap string string) (key url : string) : chat_request :=
  ChatRequest key url (default default_model (openai !! "model")) system_prompt
    (user_prompt
       (to_markdown w
          (map (fun r => AiRow (name r) (code r) (net_buy r) (change r) (turnover r))
               (top10_df (engine w) detail_df))))
    (Float64.div (Float64.of_Z 7) (Float64.of_Z 10)).

(** What the AI panel shows when the request fails. *)
Definition ai_error_event (e : exn) : event :=
  St "error" ("AI 分析请求失败: " +:+ str_exn e).

(** The number of calls to the chat endpoint in a log. *)
Definition chat_calls (log : list event) : nat :=
  length (filter (fun ev => is_chat_call ev = true) log).

(** The program only adds to the log, and what it adds holds at most [n]
    calls to the chat endpoint. *)
Definition calls_at_most {A : Type} (n : nat) (m : prog A) : Prop :=
  forall log, exists rest, snd (m log) = log ++ rest /\ (chat_calls rest <= n)%nat.

(** The head of the page. *)
Definition title_event : event := St "title" "📈 东方财富龙虎榜分析看板".

(** The page when the scan has found no day. *)
Definition not_found_event : event :=
  St "error" "最近10天没有找到龙虎榜数据，请检查网络或稍后再试。".

(** The page when the load of the found day is unavailable. *)
Definition unavailable_event : event := St "error" "无法获取详细数据。".

(** The banner of the found day. *)
Definition found_event (today i : Z) : event :=
  St "success" ("当前展示数据日期：**" +:+ display (today - i) +:+ "**").

(* ********************************************************************* *)
(** * Part II: properties *)
(* ********************************************************************* *)

(* ===================================================================== *)
(** * Properties of [format_number] *)
(* ===================================================================== *)

Example format_number_none : format_number PyNone = Ret "0".
Proof. reflexivity. Qed.

Example format_number_nan : format_number (PyFloat S754_nan) = Ret "0".
Proof. reflexivity. Qed.

Example format_number_zero : format_number (PyInt 0) = Ret "0.00".
Proof. vm_compute. reflexivity. Qed.

Example format_number_50m : format_number (PyInt 50000000) = Ret ("5000.00" +:+ wan).
Proof. vm_compute. reflexivity. Qed.

Example format_number_120m : format_number (PyInt 120000000) = Ret ("1.20" +:+ yi).
Proof. vm_compute. reflexivity. Qed.

(** 1.015 is not a double; the nearest one lies below it, so the second
    decimal is 1. *)
Example format_number_101500000 :
  format_number (PyInt 101500000) = Ret ("1.01" +:+ yi).
Proof. vm_compute. reflexivity. Qed.

Example format_number_9999 : format_number (PyInt 9999) = Ret "9999.00".
Proof. vm_compute. reflexivity. Qed.

Example format_number_small_negative :
  format_number (PyFloat (Float64.div (Float64.of_Z (-1)) (Float64.of_Z 1000)))
  = Ret "-0.00".
Proof. vm_compute. reflexivity. Qed.

(** The rounding of [.2f] is to the nearest hundredth. *)
Lemma round_half_even_nearest (n d : Z) :
  0 <= n -> 0 < d -> 2 * Z.abs (n - Float64.round_half_even n d * d) <= d.
Proof.
  intros Hn Hd. unfold Float64.round_half_even.
  pose proof (Z.div_mod n d ltac:(lia)) as Hdm.
  pose proof (Z.mod_pos_bound n d Hd) as Hr.
  destruct (Z.compare_spec (2 * (n mod d)) d) as [He|Hl|Hg].
  - destruct (Z.even (n / d)); nia.
  - nia.
  - nia.
Qed.

Lemma hundredths_nearest (m : positive) (p : positive) :
  2 * Z.abs (100 * Zpos m - Float64.hundredths m (Zneg p) * 2 ^ Zpos p) <= 2 ^ Zpos p.
Proof.
  unfold Float64.hundredths. apply round_half_even_nearest; [lia|].
  apply Z.pow_pos_nonneg; lia.
Qed.

(** A negative double is below both thresholds. *)
Lemma negative_below_thresholds (x : spec_float) :
  Float64.is_negative x = true ->
  Float64.ge x c100000000 = false /\ Float64.ge x c10000 = false.
Proof.
  destruct x as [s|s| |s m e]; try destruct s; try discriminate;
    intros _; split; reflexivity.
Qed.

(** On a double that is not negative the magnitude is the value, as far as
    the thresholds can tell. *)
Lemma abs_same_band (x c : spec_float) :
  Float64.is_negative x = false -> Float64.ge (Float64.abs x) c = Float64.ge x c.
Proof.
  destruct x as [s|s| |s m e]; try destruct s; try discriminate; reflexivity.
Qed.

Lemma float_not_na (v : value) (x : spec_float) :
  float v = Ret x -> Float64.is_nan x = false -> isna v = false.
Proof.
  destruct v as [|y|z]; simpl; intros H Hx; [discriminate| |reflexivity].
  congruence.
Qed.

Lemma negative_not_nan (x : spec_float) :
  Float64.is_negative x = true -> Float64.is_nan x = false.
Proof. destruct x; [reflexivity|reflexivity|discriminate|reflexivity]. Qed.

(** C2, as amended.  A missing input gives ["0"].  Otherwise the signed value
    [x] decides: [x >= 100000000] gives [x / 100000000] with two decimals and
    the suffix 亿; failing that, [x >= 10000] gives [x / 10000] with two
    decimals and the suffix 万; failing both, [x] itself with two decimals and
    no suffix.  On values that are not negative this is the policy on the
    magnitude. *)
Theorem format_number_signed_thresholds (v : value) :
  (isna v = true -> format_number v = Ret "0")
  /\ (forall x : spec_float, isna v = false -> float v = Ret x ->
        (Float64.ge x c100000000 = true ->
           format_number v = Ret (Float64.fixed2 (Float64.div x c100000000) +:+ yi))
        /\ (Float64.ge x c100000000 = false -> Float64.ge x c10000 = true ->
           format_number v = Ret (Float64.fixed2 (Float64.div x c10000) +:+ wan))
        /\ (Float64.ge x c100000000 = false -> Float64.ge x c10000 = false ->
           format_number v = Ret (Float64.fixed2 x))
        /\ (Float64.is_negative x = false ->
           format_number v = format_number_by_magnitude v)).
Proof.
  split.
  - intros Hna. unfold format_number. now rewrite Hna.
  - intros x Hna Hx. unfold format_number, format_number_by_magnitude.
    rewrite Hna, Hx. repeat split.
    + intros ->. reflexivity.
    + intros -> ->. reflexivity.
    + intros -> ->. reflexivity.
    + intros Hneg. now rewrite !abs_same_band.
Qed.

Lemma format_number_signed_thresholds_witness :
  format_number PyNone = Ret "0"
  /\ format_number (PyInt 120000000) = Ret ("1.20" +:+ yi)
  /\ format_number (PyInt 50000000) = Ret ("5000.00" +:+ wan)
  /\ format_number (PyInt 9999) = Ret "9999.00"
  /\ format_number (PyInt 9999) = format_number_by_magnitude (PyInt 9999).
Proof.
  split; [|split; [|split; [|split]]].
  - apply (proj1 (format_number_signed_thresholds PyNone)). reflexivity.
  - apply (proj1 (proj2 (format_number_signed_thresholds (PyInt 120000000))
                   (Float64.of_Z 120000000) eq_refl eq_refl)).
    reflexivity.
  - apply (proj1 (proj2 (proj2 (format_number_signed_thresholds (PyInt 50000000))
                   (Float64.of_Z 50000000) eq_refl eq_refl))); reflexivity.
  - apply (proj1 (proj2 (proj2 (proj2 (format_number_signed_thresholds (PyInt 9999))
                   (Float64.of_Z 9999) eq_refl eq_refl)))); reflexivity.
  - apply (proj2 (proj2 (proj2 (proj2 (format_number_signed_thresholds (PyInt 9999))
                   (Float64.of_Z 9999) eq_refl eq_refl)))); reflexivity.
Defined.

(** C2 as worded fails at -200,000,000: the magnitude reaches the first
    threshold, the policy on the magnitude gives "-2.00亿", the code gives the
    raw value. *)
Lemma format_number_magnitude_counterexample :
  Float64.ge (Float64.abs (Float64.of_Z (-200000000))) c100000000 = true
  /\ format_number_by_magnitude (PyInt (-200000000)) = Ret ("-2.00" +:+ yi)
  /\ format_number (PyInt (-200000000)) = Ret "-200000000.00"
  /\ format_number (PyInt (-200000000))
     <> Ret (Float64.fixed2 (Float64.div (Float64.of_Z (-200000000)) c100000000) +:+ yi).
Proof.
  repeat split; try (vm_compute; reflexivity).
  vm_compute. discriminate.
Qed.

(** ** The rendering is plain ASCII, so it never ends in a unit *)

Lemma plain_app (s t : string) : plain (s +:+ t) = plain s && plain t.
Proof.
  induction s as [|a s IH]; simpl.
  - reflexivity.
  - rewrite IH. now rewrite andb_assoc.
Qed.

Lemma plain_string_of_uint (u : Decimal.uint) :
  plain (NilEmpty.string_of_uint u) = true.
Proof. induction u; simpl; auto. Qed.

Lemma plain_digits (n : Z) : plain (Float64.digits n) = true.
Proof. apply plain_string_of_uint. Qed.

Lemma digit_plain (k : Z) :
  0 <= k < 10 -> (Ascii.N_of_ascii (Float64.digit k) <? 128)%N = true.
Proof.
  intros Hk.
  assert (k = 0 \/ k = 1 \/ k = 2 \/ k = 3 \/ k = 4 \/ k = 5 \/ k = 6 \/ k = 7
          \/ k = 8 \/ k = 9) as Hcases by lia.
  repeat (destruct Hcases as [->|Hcases]; [reflexivity|]). now subst.
Qed.

Lemma plain_two_digits (k : Z) : 0 <= k < 100 -> plain (Float64.two_digits k) = true.
Proof.
  intros Hk. unfold Float64.two_digits. cbn [plain].
  rewrite !digit_plain; [reflexivity| |].
  - apply Z.mod_pos_bound. lia.
  - split; [apply Z.div_pos; lia|apply Z.div_lt_upper_bound; lia].
Qed.

Lemma plain_fixed2 (x : spec_float) : plain (Float64.fixed2 x) = true.
Proof.
  destruct x as [s|s| |s m e]; try reflexivity; try (destruct s; reflexivity).
  unfold Float64.fixed2. cbv zeta.
  rewrite !plain_app, plain_digits, plain_two_digits.
  - now destruct s.
  - apply Z.mod_pos_bound. lia.
Qed.

Lemma fixed2_no_unit (x : spec_float) (s : string) :
  Float64.fixed2 x <> s +:+ yi /\ Float64.fixed2 x <> s +:+ wan.
Proof.
  split; intros Heq; pose proof (plain_fixed2 x) as Hp;
    rewrite Heq, plain_app in Hp; apply andb_true_iff in Hp as [_ Hp];
    vm_compute in Hp; discriminate.
Qed.

(** C10.  A negative number is shown as it is, with two decimals: it is below
    both thresholds whatever its magnitude, and what is shown carries neither
    unit. *)
Theorem format_number_negative_raw (v : value) (x : spec_float) :
  float v = Ret x ->
  Float64.is_negative x = true ->
  format_number v = Ret (Float64.fixed2 x)
  /\ Float64.ge x c100000000 = false
  /\ Float64.ge x c10000 = false
  /\ forall s : string, Float64.fixed2 x <> s +:+ yi /\ Float64.fixed2 x <> s +:+ wan.
Proof.
  intros Hx Hneg.
  destruct (negative_below_thresholds x Hneg) as [Hyi Hwan].
  repeat split; auto; try apply fixed2_no_unit.
  unfold format_number.
  rewrite (float_not_na v x Hx (negative_not_nan x Hneg)), Hx, Hyi, Hwan.
  reflexivity.
Qed.

Lemma format_number_negative_raw_witness :
  format_number (PyInt (-200000000)) = Ret "-200000000.00".
Proof.
  exact (proj1 (format_number_negative_raw (PyInt (-200000000))
                  (Float64.of_Z (-200000000)) eq_refl eq_refl)).
Defined.

(** Every negative float is covered, and every negative int that [float]
    accepts. *)
Lemma float_of_float (x : spec_float) : float (PyFloat x) = Ret x.
Proof. reflexivity. Qed.

Example format_number_minus_15000 : format_number (PyInt (-15000)) = Ret "-15000.00".
Proof. vm_compute. reflexivity. Qed.

Example format_number_minus_fraction :
  format_number (PyFloat (Float64.div (Float64.of_Z (-12345678)) (Float64.of_Z 1000)))
  = Ret "-12345.68".
Proof. vm_compute. reflexivity. Qed.

Example format_number_minus_inf :
  format_number (PyFloat (S754_infinity true)) = Ret "-inf".
Proof. reflexivity. Qed.

Example format_number_huge_int : format_number (PyInt (- 2 ^ 1024)) = Raise OverflowError.
Proof. vm_compute. reflexivity. Qed.

(* ===================================================================== *)
(** * Properties of [find_latest_data] *)
(* ===================================================================== *)

Ltac step_prog :=
  unfold mbind, mret, prog_bind, prog_ret, bind, ret, try_except, ask, lift, emit.

Lemma sub_days_in_calendar (today i : Z) :
  in_calendar today i -> Calendar.sub_days today i = Ret (today - i).
Proof.
  unfold in_calendar, Calendar.sub_days. intros [Hlo Hhi].
  apply Z.leb_le in Hlo. apply Z.leb_le in Hhi. cbv zeta. now rewrite Hlo, Hhi.
Qed.

(** A candidate without data, raising or not, only adds its probe to the log:
    the scan goes on with the older candidates. *)
Lemma scan_miss (ak : akshare) (today i : Z) (older : list Z) (log : list event) :
  in_calendar today i ->
  has_data ak (candidate today i) = false ->
  scan ak today (i :: older) log = scan ak today older (log ++ [probe_event today i]).
Proof.
  intros Hcal Hmiss. unfold has_data, candidate in Hmiss.
  cbn [scan]. step_prog. rewrite (sub_days_in_calendar _ _ Hcal).
  destruct (stock_lhb_detail_em ak _ _) as [df|e]; [|reflexivity].
  apply negb_false_iff in Hmiss. rewrite Hmiss. reflexivity.
Qed.

(** A candidate with data ends the scan: nothing older is probed. *)
Lemma scan_hit (ak : akshare) (today i : Z) (older : list Z) (log : list event) :
  in_calendar today i ->
  has_data ak (candidate today i) = true ->
  scan ak today (i :: older) log
  = (Ret (Some (candidate today i), Some (display (today - i))),
     log ++ [probe_event today i]).
Proof.
  intros Hcal Hhit. unfold has_data, candidate in Hhit.
  cbn [scan]. step_prog. rewrite (sub_days_in_calendar _ _ Hcal).
  destruct (stock_lhb_detail_em ak _ _) as [df|e]; [|discriminate].
  rewrite Hhit. reflexivity.
Qed.

Lemma scan_all_miss (ak : akshare) (today : Z) (offsets : list Z) :
  forall log : list event,
  Forall (fun i => in_calendar today i /\ has_data ak (candidate today i) = false)
         offsets ->
  scan ak today offsets log
  = (Ret (None, None), log ++ map (probe_event today) offsets).
Proof.
  induction offsets as [|i older IH]; intros log Hall.
  - cbn. now rewrite app_nil_r.
  - inversion Hall as [|? ? [Hcal Hmiss] Holder]; subst.
    rewrite scan_miss by assumption. rewrite IH by assumption.
    cbn [map]. now rewrite <- app_assoc.
Qed.

Lemma scan_first_hit (ak : akshare) (today i : Z) (newer older : list Z) :
  forall log : list event,
  Forall (fun j => in_calendar today j /\ has_data ak (candidate today j) = false)
         newer ->
  in_calendar today i ->
  has_data ak (candidate today i) = true ->
  scan ak today (newer ++ i :: older) log
  = (Ret (Some (candidate today i), Some (display (today - i))),
     log ++ map (probe_event today) (newer ++ [i])).
Proof.
  induction newer as [|j newer IH]; intros log Hall Hcal Hhit.
  - cbn [app]. now rewrite scan_hit.
  - inversion Hall as [|? ? [Hcalj Hmiss] Hnewer]; subst.
    rewrite <- app_comm_cons. rewrite scan_miss by assumption.
    rewrite IH by assumption. cbn [app map]. now rewrite <- app_assoc.
Qed.

Lemma range_split (i n : nat) :
  (i < n)%nat ->
  range n = range i ++ Z.of_nat i :: map Z.of_nat (seq (S i) (n - S i)).
Proof.
  intros Hlt. unfold range.
  replace n with (i + S (n - S i))%nat at 1 by lia.
  rewrite seq_app, map_app. reflexivity.
Qed.

Lemma range_S (i : nat) : range (S i) = range i ++ [Z.of_nat i].
Proof. unfold range. now rewrite seq_S, map_app. Qed.

Lemma Forall_range (P : Z -> Prop) (n : nat) :
  (forall j : nat, (j < n)%nat -> P (Z.of_nat j)) -> Forall P (range n).
Proof.
  intros H. unfold range. apply Forall_forall. intros z Hz.
  apply list_elem_of_In, in_map_iff in Hz as (j & <- & Hj).
  apply in_seq in Hj. apply H. lia.
Qed.

(** C1.  With the clock inside the calendar, the scan answers for the first
    offset among 0..9 whose probe finds data, whatever the probes of the more
    recent dates gave (nothing, an empty frame or an exception), and it has
    then probed exactly the offsets up to that one.  When none of the ten
    probes finds data the answer is [(None, None)], after ten probes, and no
    exception leaves the function. *)
Theorem find_latest_data_first_hit (today : Z) (ak : akshare) :
  Calendar.MINORD + 9 <= today <= Calendar.MAXORD ->
  (forall i : nat,
      (i < 10)%nat ->
      has_data ak (candidate today (Z.of_nat i)) = true ->
      (forall j : nat, (j < i)%nat ->
                       has_data ak (candidate today (Z.of_nat j)) = false) ->
      run (find_latest_data today ak)
      = (Ret (Some (candidate today (Z.of_nat i)),
              Some (display (today - Z.of_nat i))),
         map (probe_event today) (range (S i))))
  /\ ((forall j : nat, (j < 10)%nat ->
                       has_data ak (candidate today (Z.of_nat j)) = false) ->
      run (find_latest_data today ak)
      = (Ret (None, None), map (probe_event today) (range 10))).
Proof.
  intros Hclock.
  assert (Hcal : forall j : nat, (j < 10)%nat -> in_calendar today (Z.of_nat j)).
  { intros j Hj. unfold in_calendar, Calendar.MINORD, Calendar.MAXORD in *. lia. }
  split.
  - intros i Hi Hhit Hnewer. unfold run, find_latest_data.
    rewrite (range_split i 10 Hi), scan_first_hit.
    + now rewrite range_S.
    + apply Forall_range. intros j Hj. split; [apply Hcal; lia|now apply Hnewer].
    + now apply Hcal.
    + exact Hhit.
  - intros Hmiss. unfold run, find_latest_data. rewrite scan_all_miss.
    + reflexivity.
    + apply Forall_range. intros j Hj. split; [now apply Hcal|now apply Hmiss].
Qed.

(** The ten candidates of 2026-01-03 reach back into the year before. *)
Example candidates_across_new_year :
  map (candidate 739619) (range 10)
  = ["20260103"; "20260102"; "20260101"; "20251231"; "20251230"; "20251229";
     "20251228"; "20251227"; "20251226"; "20251225"].
Proof. vm_compute. reflexivity. Qed.

Example display_leap_day : display 738945 = "2024-02-29（周四）".
Proof. vm_compute. reflexivity. Qed.

Lemma find_latest_data_first_hit_witness :
  run (find_latest_data Sample.tuesday Sample.source)
  = (Ret (Some "20261031", Some "2026-10-31（周六）"),
     [AkDetail "20261103" "20261103"; AkDetail "20261102" "20261102";
      AkDetail "20261101" "20261101"; AkDetail "20261031" "20261031"])
  /\ run (find_latest_data Sample.tuesday Sample.source_down)
     = (Ret (None, None), map (probe_event Sample.tuesday) (range 10)).
Proof.
  assert (Hclock : Calendar.MINORD + 9 <= Sample.tuesday <= Calendar.MAXORD)
    by (vm_compute; split; discriminate).
  split.
  - apply (proj1 (find_latest_data_first_hit Sample.tuesday Sample.source Hclock) 3%nat).
    + lia.
    + reflexivity.
    + intros j Hj. do 3 (destruct j as [|j]; [reflexivity|]). lia.
  - apply (proj2 (find_latest_data_first_hit Sample.tuesday Sample.source_down Hclock)).
    intros j _. reflexivity.
Defined.

(* ===================================================================== *)
(** * Properties of [get_lhb_data] *)
(* ===================================================================== *)

Section LoadDay.

Variable ak : akshare.
Variable date_str : string.

Let primary := stock_lhb_detail_em ak date_str date_str.
Let institutional := stock_lhb_jgmmtj_em ak date_str date_str.
Let branches := stock_lhb_hyyyb_em ak date_str date_str.

Let load_error (e : exn) : event := St "error" ("获取数据时出错: " +:+ str_exn e).

Lemma load_primary_fails (e : exn) (log : list event) :
  primary = Fails e ->
  get_lhb_data ak date_str log
  = (Ret (None, None, None), (log ++ [AkDetail date_str date_str]) ++ [load_error e]).
Proof.
  subst primary. intros H. unfold get_lhb_data. step_prog. now rewrite H.
Qed.

Lemma load_primary_empty (df : option (list (detail_row cell))) (log : list event) :
  primary = Returns df ->
  none_or_empty df = true ->
  get_lhb_data ak date_str log
  = (Ret (None, None, None), log ++ [AkDetail date_str date_str]).
Proof.
  subst primary. intros H Hempty. unfold get_lhb_data. step_prog.
  now rewrite H, Hempty.
Qed.

Lemma nonempty_frame {A : Type} (rows : list A) :
  rows <> [] -> none_or_empty (Some rows) = false.
Proof. now destruct rows. Qed.

Lemma load_complete (rows : list (detail_row cell))
    (jg_df : option (list jg_row)) (yyb_df : option (list yyb_row)) (log : list event) :
  primary = Returns (Some rows) ->
  rows <> [] ->
  institutional = Returns jg_df ->
  branches = Returns yyb_df ->
  get_lhb_data ak date_str log
  = (Ret (Some rows, jg_df, yyb_df),
     ((log ++ [AkDetail date_str date_str]) ++ [AkJg date_str date_str])
     ++ [AkYyb date_str date_str]).
Proof.
  subst primary institutional branches. intros H Hrows Hjg Hyyb.
  unfold get_lhb_data. step_prog.
  now rewrite H, (nonempty_frame rows Hrows), Hjg, Hyyb.
Qed.


(** Whatever the data source does, the load ends without an exception, on
    three absent frames or on a disclosure frame with rows. *)
Lemma load_shape (log : list event) :
  fst (get_lhb_data ak date_str log) = Ret (None, None, None)
  \/ exists rows jg_df yyb_df,
       rows <> []
       /\ fst (get_lhb_data ak date_str log) = Ret (Some rows, jg_df, yyb_df).
Proof.
  unfold get_lhb_data. step_prog.
  destruct (stock_lhb_detail_em ak date_str date_str) as [[[|r rows]|]|e];
    try (left; reflexivity).
  cbn [none_or_empty df_empty].
  destruct (stock_lhb_jgmmtj_em ak date_str date_str) as [jg_df|e];
    [|left; reflexivity].
  destruct (stock_lhb_hyyyb_em ak date_str date_str) as [yyb_df|e];
    [|left; reflexivity].
  right. exists (r :: rows), jg_df, yyb_df. split; [discriminate|reflexivity].
Qed.

End LoadDay.

(** C5.  When the disclosure fetch returns nothing, returns an empty frame or
    raises, the load answers [(None, None, None)]; and no load ever answers
    with secondary frames beside an absent disclosure frame. *)
Theorem get_lhb_data_primary_unavailable (ak : akshare) (date_str : string) :
  (stock_lhb_detail_em ak date_str date_str = Returns None
   \/ stock_lhb_detail_em ak date_str date_str = Returns (Some [])
   \/ (exists e, stock_lhb_detail_em ak date_str date_str = Fails e) ->
   fst (run (get_lhb_data ak date_str)) = Ret (None, None, None))
  /\ (forall (jg_df : option (list jg_row)) (yyb_df : option (list yyb_row)),
        fst (run (get_lhb_data ak date_str)) = Ret (None, jg_df, yyb_df) ->
        jg_df = None /\ yyb_df = None)
  /\ (exists result, fst (run (get_lhb_data ak date_str)) = Ret result).
Proof.
  unfold run. repeat split.
  - intros [H|[H|[e H]]].
    + now rewrite (load_primary_empty ak date_str None [] H).
    + now rewrite (load_primary_empty ak date_str (Some []) [] H).
    + now rewrite (load_primary_fails ak date_str e [] H).
  - destruct (load_shape ak date_str []) as [Hnone|(rows & j & y & _ & Hsome)];
      congruence.
  - destruct (load_shape ak date_str []) as [Hnone|(rows & j & y & _ & Hsome)];
      congruence.
  - destruct (load_shape ak date_str []) as [Hnone|(rows & j & y & _ & Hsome)];
      eauto.
Qed.

Lemma get_lhb_data_primary_unavailable_witness :
  fst (run (get_lhb_data Sample.source "20261102")) = Ret (None, None, None)
  /\ fst (run (get_lhb_data Sample.source "20261101")) = Ret (None, None, None)
  /\ fst (run (get_lhb_data Sample.source "20261103")) = Ret (None, None, None).
Proof.
  split; [|split].
  - apply (proj1 (get_lhb_data_primary_unavailable Sample.source "20261102")).
    right. left. reflexivity.
  - apply (proj1 (get_lhb_data_primary_unavailable Sample.source "20261101")).
    left. reflexivity.
  - apply (proj1 (get_lhb_data_primary_unavailable Sample.source "20261103")).
    right. right. eexists. reflexivity.
Defined.

(** When the disclosure fetch finds nothing the secondary endpoints are not
    even called. *)
Example load_empty_day_log :
  run (get_lhb_data Sample.source "20261102")
  = (Ret (None, None, None), [AkDetail "20261102" "20261102"]).
Proof. reflexivity. Qed.

Lemma sum_nil : sum [] = 0.
Proof. reflexivity. Qed.

Lemma jg_buy_total_default (jg_df : option (list jg_row)) :
  none_or_empty jg_df = true -> jg_buy_total jg_df = 0.
Proof. destruct jg_df as [[|r rows]|]; [reflexivity|discriminate|reflexivity]. Qed.

Lemma waizi_buy_total_default (yyb_df : option (list yyb_row)) :
  none_or_empty yyb_df = true -> waizi_buy_total yyb_df = 0.
Proof. destruct yyb_df as [[|r rows]|]; [reflexivity|discriminate|reflexivity]. Qed.




(** The page with both secondary frames absent or empty: the overview is
    shown, with zero for the two totals. *)
Example main_secondary_empty_metrics :
  let log := snd (run (main (Sample.world_with Sample.source_secondary_empty false None))) in
  In (StMetric "上榜个股" "11 只") log
  /\ In (StMetric "机构买入" "0.00") log
  /\ In (StMetric "外资买入" "0.00") log.
Proof. vm_compute. intuition. Qed.

(** The page on the sample day. *)
Example main_sample_metrics :
  let log := snd (run (main Sample.configured)) in
  In (StMetric "上榜个股" "11 只") log
  /\ In (StMetric "机构买入" ("5000.00" +:+ wan)) log
  /\ In (StMetric "外资买入" ("1.20" +:+ yi)) log.
Proof. vm_compute. intuition. Qed.

(* ===================================================================== *)
(** * Properties of the metrics *)
(* ===================================================================== *)

(** ** Substring search *)



(** ** Sums *)

Lemma fold_sum (col : list (option Z)) (acc : Z) :
  fold_left (fun acc x => acc + default 0 x) col acc = acc + sum col.
Proof.
  unfold sum. revert acc. induction col as [|x col IH]; intros acc; cbn [fold_left].
  - lia.
  - rewrite IH, (IH (0 + default 0 x)). lia.
Qed.

Lemma sum_cons (x : option Z) (col : list (option Z)) :
  sum (x :: col) = default 0 x + sum col.
Proof. unfold sum at 1. cbn [fold_left]. rewrite fold_sum. lia. Qed.


(** ** The foreign buy total *)








(** ** The count of distinct stocks *)

Lemma unique_from_elem (seen col : list string) (x : string) :
  x ∈ unique_from seen col <-> x ∈ col /\ x ∉ seen.
Proof.
  revert seen. induction col as [|y col IH]; intros seen; cbn [unique_from].
  - split; [intros H; inversion H|intros [H _]; inversion H].
  - case_bool_decide as Hy.
    + rewrite IH, elem_of_cons. split; [tauto|].
      intros [[->|H] Hx]; [contradiction|tauto].
    + rewrite !elem_of_cons, IH, elem_of_cons. split.
      * intros [->|[H Hx]]; [tauto|]. split; [tauto|]. intros Hs. apply Hx. tauto.
      * intros [[->|H] Hx]; [tauto|].
        destruct (decide (x = y)) as [->|Hne]; [tauto|]. right. split; [assumption|].
        intros [?|?]; contradiction.
Qed.

Lemma unique_from_NoDup (seen col : list string) : NoDup (unique_from seen col).
Proof.
  revert seen. induction col as [|y col IH]; intros seen; cbn [unique_from].
  - constructor.
  - case_bool_decide as Hy; [apply IH|].
    constructor; [|apply IH].
    rewrite unique_from_elem, elem_of_cons. tauto.
Qed.

Lemma unique_elem (col : list string) (x : string) : x ∈ unique col <-> x ∈ col.
Proof.
  unfold unique. rewrite unique_from_elem. split; [tauto|].
  intros H. split; [assumption|]. intros Hnil. inversion Hnil.
Qed.

Lemma unique_card (col : list string) :
  length (unique col) = size (list_to_set col : gset string).
Proof.
  rewrite <- (size_list_to_set (C := gset string) (unique col))
    by apply unique_from_NoDup.
  f_equal. apply set_eq. intros x.
  now rewrite !elem_of_list_to_set, unique_elem.
Qed.

Lemma coerce_code (parse : string -> option Z) (df : list (detail_row cell)) :
  map code (coerce parse df) = map code df.
Proof. unfold coerce. rewrite map_map. reflexivity. Qed.

Lemma coerce_length (parse : string -> option Z) (df : list (detail_row cell)) :
  length (coerce parse df) = length df.
Proof. unfold coerce. now rewrite length_map. Qed.

(** ** Taking rows by position *)

Lemma take_rows_from {A : Type} (pre df : list A) :
  take_rows (seq (length pre) (length df)) (pre ++ df) = df.
Proof.
  unfold take_rows. revert pre. induction df as [|r df IH]; intros pre; [reflexivity|].
  cbn [length seq omap list_omap]. rewrite list_lookup_middle by reflexivity.
  fold (omap (fun i => (pre ++ r :: df) !! i) (seq (S (length pre)) (length df))).
  f_equal. specialize (IH (pre ++ [r])).
  rewrite length_app, <- app_assoc in IH. cbn in IH.
  now rewrite Nat.add_1_r in IH.
Qed.

Lemma take_rows_all {A : Type} (df : list A) : take_rows (seq 0 (length df)) df = df.
Proof. exact (take_rows_from [] df). Qed.

Lemma take_rows_perm {A : Type} (indexer : list nat) (df : list A) :
  indexer ≡ₚ seq 0 (length df) -> take_rows indexer df ≡ₚ df.
Proof.
  intros H. unfold take_rows. rewrite H. fold (take_rows (seq 0 (length df)) df).
  now rewrite take_rows_all.
Qed.

Lemma take_rows_map {A B : Type} (f : A -> B) (indexer : list nat) (df : list A) :
  map f (take_rows indexer df) = take_rows indexer (map f df).
Proof.
  unfold take_rows. induction indexer as [|i indexer IH]; [reflexivity|].
  cbn [omap list_omap]. fold (omap (fun i => df !! i) indexer).
  fold (omap (fun i => map f df !! i) indexer).
  change (map f df !! i) with ((f <$> df) !! i). rewrite list_lookup_fmap.
  destruct (df !! i); cbn [fmap option_fmap option_map map]; now rewrite <- IH.
Qed.

Lemma take_rows_in_range (keys : list (option Z)) (indexer : list nat) :
  Forall (fun i => (i < length keys)%nat) indexer ->
  take_rows indexer keys = keys_at keys indexer.
Proof.
  unfold take_rows, keys_at. induction 1 as [|i indexer Hi _ IH]; [reflexivity|].
  cbn [omap list_omap map]. fold (omap (fun i => keys !! i) indexer).
  destruct (lookup_lt_is_Some_2 keys i Hi) as [k Hk].
  rewrite Hk, (list_lookup_total_correct keys i k Hk). now rewrite IH.
Qed.

Lemma argsort_in_range (keys : list (option Z)) (indexer : list nat) :
  indexer ≡ₚ seq 0 (length keys) ->
  Forall (fun i => (i < length keys)%nat) indexer.
Proof.
  intros H. rewrite H. apply Forall_forall. intros i Hi.
  apply list_elem_of_In, in_seq in Hi. lia.
Qed.

(** Under pandas' promise the sorted frame is a rearrangement of the frame. *)
Lemma sort_values_perm (engine : list (option Z) -> list nat)
    (df : list (detail_row (option Z))) :
  is_argsort (map net_buy df) (engine (map net_buy df)) ->
  sort_values engine df ≡ₚ df.
Proof.
  intros [Hperm _]. unfold sort_values. apply take_rows_perm.
  now rewrite length_map in Hperm.
Qed.

Lemma sort_values_descending (engine : list (option Z) -> list nat)
    (df : list (detail_row (option Z))) :
  is_argsort (map net_buy df) (engine (map net_buy df)) ->
  descending (map net_buy (sort_values engine df)) = true.
Proof.
  intros [_ Hdesc]. unfold sort_values. now rewrite take_rows_map.
Qed.


(* ===================================================================== *)
(** * Properties of the ranking *)
(* ===================================================================== *)

(** ** The order on keys *)

Lemma precedes_refl (a : option Z) : precedes a a = true.
Proof. destruct a; cbn; [apply Z.leb_refl|reflexivity]. Qed.

Lemma precedes_trans (a b c : option Z) :
  precedes a b = true -> precedes b c = true -> precedes a c = true.
Proof.
  destruct a, b, c; cbn; try easy.
  rewrite !Z.leb_le. lia.
Qed.

Lemma precedes_total (a b : option Z) : precedes a b = false -> precedes b a = true.
Proof.
  destruct a, b; cbn; try easy.
  rewrite Z.leb_gt, Z.leb_le. lia.
Qed.

Lemma precedes_antisym (a b : option Z) :
  precedes a b = true -> precedes b a = true -> a = b.
Proof.
  destruct a, b; cbn; try easy.
  rewrite !Z.leb_le. intros. f_equal. lia.
Qed.

Lemma descending_cons (a : option Z) (keys : list (option Z)) :
  descending (a :: keys) = true
  <-> Forall (fun b => precedes a b = true) keys /\ descending keys = true.
Proof.
  revert a. induction keys as [|b keys IH]; intros a.
  - cbn. split; [intros _; split; [constructor|reflexivity]|reflexivity].
  - change (descending (a :: b :: keys))
      with (precedes a b && descending (b :: keys)).
    rewrite andb_true_iff. split.
    + intros [Hab Hdesc]. split; [|assumption].
      constructor; [assumption|]. apply IH in Hdesc as [Hall _].
      eapply Forall_impl; [exact Hall|]. intros c Hbc. cbn in Hbc.
      eapply precedes_trans; eassumption.
    + intros [Hall Hdesc]. split; [|assumption]. now inversion Hall.
Qed.

(** In a descending column an earlier key precedes a later one. *)
Lemma descending_lookup (keys : list (option Z)) (p q : nat) (a b : option Z) :
  descending keys = true -> (p < q)%nat ->
  keys !! p = Some a -> keys !! q = Some b -> precedes a b = true.
Proof.
  revert p q. induction keys as [|k keys IH]; intros p q Hdesc Hpq Hp Hq.
  - discriminate.
  - apply descending_cons in Hdesc as [Hall Hdesc].
    destruct q as [|q]; [lia|]. cbn in Hq. destruct p as [|p].
    + cbn in Hp. injection Hp as ->.
      rewrite Forall_forall in Hall. apply Hall.
      eapply list_elem_of_lookup_2; eassumption.
    + cbn in Hp. apply (IH p q); [assumption|lia|assumption|assumption].
Qed.

(** Two descending arrangements of the same keys are the same column: only
    the rows behind equal keys can change places. *)
Lemma descending_unique (keys1 keys2 : list (option Z)) :
  keys1 ≡ₚ keys2 -> descending keys1 = true -> descending keys2 = true ->
  keys1 = keys2.
Proof.
  revert keys2. induction keys1 as [|a keys1 IH]; intros keys2 Hperm H1 H2.
  - now apply Permutation_nil_l in Hperm.
  - destruct keys2 as [|b keys2]; [now apply Permutation_nil_r in Hperm|].
    apply descending_cons in H1 as [Hall1 Hd1].
    apply descending_cons in H2 as [Hall2 Hd2].
    assert (a = b) as ->.
    { assert (Ha : a ∈ b :: keys2) by (rewrite <- Hperm; left).
      assert (Hb : b ∈ a :: keys1) by (rewrite Hperm; left).
      rewrite Forall_forall in Hall1, Hall2.
      apply elem_of_cons in Ha as [->|Ha]; [reflexivity|].
      apply elem_of_cons in Hb as [->|Hb]; [reflexivity|].
      apply precedes_antisym; [now apply Hall1|now apply Hall2]. }
    f_equal. apply IH; [|assumption|assumption].
    eapply Permutation_cons_inv. exact Hperm.
Qed.

(** ** The insertion engine keeps pandas' promise *)

Section Insertion.

Variable before : option Z -> option Z -> bool.
Hypothesis before_precedes : forall a b, before a b = true -> precedes a b = true.
Hypothesis not_before : forall a b, before a b = false -> precedes b a = true.

Variable keys : list (option Z).

Lemma insert_position_perm (i : nat) (ordered : list nat) :
  insert_position before keys i ordered ≡ₚ i :: ordered.
Proof.
  induction ordered as [|j ordered IH]; cbn [insert_position]; [reflexivity|].
  destruct (before _ _); [reflexivity|].
  rewrite IH. apply Permutation_swap.
Qed.

Lemma insert_fold_perm (positions ordered : list nat) :
  fold_left (fun ordered i => insert_position before keys i ordered) positions ordered
  ≡ₚ positions ++ ordered.
Proof.
  revert ordered. induction positions as [|i positions IH]; intros ordered;
    cbn [fold_left]; [reflexivity|].
  rewrite IH, insert_position_perm. cbn. symmetry. apply Permutation_middle.
Qed.

Lemma insert_position_descending (i : nat) (ordered : list nat) :
  descending (keys_at keys ordered) = true ->
  descending (keys_at keys (insert_position before keys i ordered)) = true.
Proof.
  induction ordered as [|j ordered IH]; intros Hdesc; cbn [insert_position];
    [reflexivity|].
  destruct (before (keys !!! i) (keys !!! j)) eqn:Hb.
  - unfold keys_at in *. cbn [map] in *. apply descending_cons. split; [|assumption].
    apply descending_cons in Hdesc as [Hall _].
    constructor; [now apply before_precedes|].
    eapply Forall_impl; [exact Hall|]. intros c Hc. cbn in Hc.
    eapply precedes_trans; [apply before_precedes; eassumption|assumption].
  - unfold keys_at in *. cbn [map] in *.
    apply descending_cons in Hdesc as [Hall Hdesc].
    apply descending_cons. split; [|now apply IH].
    rewrite (insert_position_perm i ordered). cbn [map].
    constructor; [now apply not_before|assumption].
Qed.

Lemma insert_fold_descending (positions ordered : list nat) :
  descending (keys_at keys ordered) = true ->
  descending (keys_at keys
    (fold_left (fun ordered i => insert_position before keys i ordered)
               positions ordered)) = true.
Proof.
  revert ordered. induction positions as [|i positions IH]; intros ordered Hdesc;
    cbn [fold_left]; [assumption|].
  apply IH. now apply insert_position_descending.
Qed.

Lemma insertion_engine_is_argsort : is_argsort keys (insertion_engine before keys).
Proof.
  assert (Hperm : insertion_engine before keys ≡ₚ seq 0 (length keys)).
  { unfold insertion_engine. rewrite insert_fold_perm. now rewrite app_nil_r. }
  split; [exact Hperm|].
  rewrite take_rows_in_range by now apply argsort_in_range.
  unfold insertion_engine. now apply insert_fold_descending.
Qed.

End Insertion.

Lemma strictly_precedes_precedes (a b : option Z) :
  strictly_precedes a b = true -> precedes a b = true.
Proof. unfold strictly_precedes. now intros [H _]%andb_true_iff. Qed.

Lemma not_strictly_precedes (a b : option Z) :
  strictly_precedes a b = false -> precedes b a = true.
Proof.
  unfold strictly_precedes. intros [H|H]%andb_false_iff.
  - now apply precedes_total.
  - now apply negb_false_iff in H.
Qed.

(** Every key column has an ordering that keeps the promise. *)
Lemma stable_engine_is_argsort (keys : list (option Z)) :
  is_argsort keys (stable_engine keys).
Proof.
  apply insertion_engine_is_argsort;
    [apply strictly_precedes_precedes|apply not_strictly_precedes].
Qed.

(** ** The insertion engine is stable *)

Lemma strictly_precedes_trans (a b c : option Z) :
  strictly_precedes a b = true -> precedes b c = true -> strictly_precedes a c = true.
Proof.
  unfold strictly_precedes. destruct a, b, c; cbn; try easy.
  rewrite !andb_true_iff, !negb_true_iff, !Z.leb_le, !Z.leb_gt. lia.
Qed.

Lemma strictly_precedes_irrefl (a : option Z) : strictly_precedes a a = false.
Proof. unfold strictly_precedes. now rewrite precedes_refl. Qed.

Lemma stable_order_precedes (keys : list (option Z)) (i j : nat) :
  stable_order keys i j -> precedes (keys !!! i) (keys !!! j) = true.
Proof.
  intros [H|[-> _]]; [now apply strictly_precedes_precedes|apply precedes_refl].
Qed.

Lemma insert_position_stable (keys : list (option Z)) (i : nat) (ordered : list nat) :
  StronglySorted (stable_order keys) ordered ->
  Forall (fun j => (j < i)%nat) ordered ->
  StronglySorted (stable_order keys)
                 (insert_position strictly_precedes keys i ordered).
Proof.
  induction ordered as [|j ordered IH]; intros Hsorted Hbelow; cbn [insert_position].
  - repeat constructor.
  - apply StronglySorted_inv in Hsorted as [Hsorted Hall].
    apply Forall_cons in Hbelow as [Hj Hbelow].
    destruct (strictly_precedes (keys !!! i) (keys !!! j)) eqn:Hb.
    + constructor; [now constructor|].
      constructor; [now left|].
      eapply Forall_impl; [exact Hall|]. intros r Hr. cbn in Hr. left.
      eapply strictly_precedes_trans; [exact Hb|now apply stable_order_precedes].
    + constructor; [now apply IH|].
      rewrite (insert_position_perm strictly_precedes keys i ordered).
      constructor; [|assumption].
      destruct (strictly_precedes (keys !!! j) (keys !!! i)) eqn:Hji; [now left|].
      right. split; [|assumption].
      apply precedes_antisym; now apply not_strictly_precedes.
Qed.

Lemma insert_fold_stable (keys : list (option Z)) (len start : nat) (ordered : list nat) :
  StronglySorted (stable_order keys) ordered ->
  Forall (fun j => (j < start)%nat) ordered ->
  StronglySorted (stable_order keys)
    (fold_left (fun ordered i => insert_position strictly_precedes keys i ordered)
               (seq start len) ordered).
Proof.
  revert start ordered. induction len as [|len IH]; intros start ordered Hsorted Hbelow;
    cbn [seq fold_left]; [assumption|].
  apply IH; [now apply insert_position_stable|].
  rewrite (insert_position_perm strictly_precedes keys start ordered).
  constructor; [lia|]. eapply Forall_impl; [exact Hbelow|]. cbn. lia.
Qed.

Lemma strongly_sorted_lookup {A : Type} (R : A -> A -> Prop) (l : list A)
    (p q : nat) (x y : A) :
  StronglySorted R l -> (p < q)%nat -> l !! p = Some x -> l !! q = Some y -> R x y.
Proof.
  intros Hsorted. revert p q. induction Hsorted as [|a l Hsorted IH Hall];
    intros p q Hpq Hp Hq; [discriminate|].
  destruct q as [|q]; [lia|]. cbn in Hq. destruct p as [|p]; cbn in Hp.
  - injection Hp as ->. rewrite Forall_forall in Hall. apply Hall.
    eapply list_elem_of_lookup_2; eassumption.
  - apply (IH p q); [lia|assumption|assumption].
Qed.

(** The first engine breaks ties by fetch order, on every key column. *)
Lemma stable_engine_stable (keys : list (option Z)) : stable keys (stable_engine keys).
Proof.
  intros p q i j Hpq Hp Hq Hkeys.
  assert (Hsorted : StronglySorted (stable_order keys) (stable_engine keys)).
  { apply insert_fold_stable; constructor. }
  destruct (strongly_sorted_lookup _ _ p q i j Hsorted Hpq Hp Hq) as [Hstrict|[_ Hlt]];
    [|exact Hlt].
  rewrite !list_lookup_total_alt, Hkeys, strictly_precedes_irrefl in Hstrict.
  discriminate.
Qed.

(** Conversely an ordering that keeps the promise and breaks ties by fetch
    order is sorted for [stable_order]. *)
Lemma strongly_sorted_of_lookup {A : Type} (R : A -> A -> Prop) (l : list A) :
  (forall (p q : nat) (x y : A),
      (p < q)%nat -> l !! p = Some x -> l !! q = Some y -> R x y) ->
  StronglySorted R l.
Proof.
  induction l as [|a l IH]; intros Hpairs; constructor.
  - apply IH. intros p q x y Hpq Hp Hq. apply (Hpairs (S p) (S q)); [lia|exact Hp|exact Hq].
  - apply Forall_forall. intros y Hy.
    apply list_elem_of_lookup_1 in Hy as [q Hq].
    apply (Hpairs 0%nat (S q)); [lia|reflexivity|exact Hq].
Qed.

Lemma stable_argsort_sorted (keys : list (option Z)) (indexer : list nat) :
  is_argsort keys indexer -> stable keys indexer ->
  StronglySorted (stable_order keys) indexer.
Proof.
  intros [Hperm Hdesc] Hstable.
  pose proof (argsort_in_range keys indexer Hperm) as Hrange.
  rewrite take_rows_in_range in Hdesc by assumption.
  apply strongly_sorted_of_lookup. intros p q i j Hpq Hp Hq.
  assert (Hpre : precedes (keys !!! i) (keys !!! j) = true).
  { apply (descending_lookup (keys_at keys indexer) p q); [assumption|assumption| |];
      unfold keys_at; change (map ?f indexer) with (f <$> indexer);
      rewrite list_lookup_fmap; [now rewrite Hp|now rewrite Hq]. }
  destruct (strictly_precedes (keys !!! i) (keys !!! j)) eqn:Hstrict; [now left|].
  right. apply not_strictly_precedes in Hstrict.
  assert (Heq : keys !!! i = keys !!! j) by now apply precedes_antisym.
  split; [exact Heq|]. apply (Hstable p q i j Hpq Hp Hq).
  rewrite Forall_forall in Hrange.
  destruct (lookup_lt_is_Some_2 keys i) as [ki Hki];
    [apply Hrange; eapply list_elem_of_lookup_2; eassumption|].
  destruct (lookup_lt_is_Some_2 keys j) as [kj Hkj];
    [apply Hrange; eapply list_elem_of_lookup_2; eassumption|].
  rewrite (list_lookup_total_correct keys i ki Hki),
          (list_lookup_total_correct keys j kj Hkj) in Heq.
  congruence.
Qed.

Lemma stable_order_asym (keys : list (option Z)) (i j : nat) :
  stable_order keys i j -> stable_order keys j i -> False.
Proof.
  intros [Hij|[Heq Hlt]] [Hji|[Heq' Hlt']].
  - pose proof (strictly_precedes_trans _ _ _ Hij (strictly_precedes_precedes _ _ Hji)) as H.
    rewrite strictly_precedes_irrefl in H. discriminate.
  - rewrite Heq', strictly_precedes_irrefl in Hij. discriminate.
  - rewrite Heq, strictly_precedes_irrefl in Hji. discriminate.
  - lia.
Qed.

Lemma strongly_sorted_unique {A : Type} (R : A -> A -> Prop) (l1 l2 : list A) :
  (forall x y, R x y -> R y x -> False) ->
  l1 ≡ₚ l2 -> StronglySorted R l1 -> StronglySorted R l2 -> l1 = l2.
Proof.
  intros Hasym. revert l2. induction l1 as [|a l1 IH]; intros l2 Hperm H1 H2.
  - now apply Permutation_nil_l in Hperm.
  - destruct l2 as [|b l2]; [now apply Permutation_nil_r in Hperm|].
    apply StronglySorted_inv in H1 as [H1 Hall1].
    apply StronglySorted_inv in H2 as [H2 Hall2].
    assert (a = b) as ->.
    { assert (Ha : a ∈ b :: l2) by (rewrite <- Hperm; left).
      assert (Hb : b ∈ a :: l1) by (rewrite Hperm; left).
      rewrite Forall_forall in Hall1, Hall2.
      apply elem_of_cons in Ha as [->|Ha]; [reflexivity|].
      apply elem_of_cons in Hb as [->|Hb]; [reflexivity|].
      exfalso. apply (Hasym a b); [now apply Hall1|now apply Hall2]. }
    f_equal. apply IH; [|assumption|assumption].
    eapply Permutation_cons_inv. exact Hperm.
Qed.

(** There is one stable ordering that keeps the promise: the first engine's. *)
Lemma stable_argsort_unique (keys : list (option Z)) (indexer : list nat) :
  is_argsort keys indexer -> stable keys indexer -> indexer = stable_engine keys.
Proof.
  intros Hsort Hstable.
  apply (strongly_sorted_unique (stable_order keys)).
  - apply stable_order_asym.
  - destruct Hsort as [Hperm _]. etrans; [exact Hperm|].
    symmetry. apply (proj1 (stable_engine_is_argsort keys)).
  - now apply stable_argsort_sorted.
  - apply stable_argsort_sorted; [apply stable_engine_is_argsort|apply stable_engine_stable].
Qed.

(** A decidable statement about sample data is settled by evaluating it. *)
Ltac by_evaluation := apply (bool_decide_unpack _); vm_compute; exact I.

(** ** pandas' [nargsort] *)

Lemma take_rows_cons {A : Type} (i : nat) (indexer : list nat) (df : list A) :
  take_rows (i :: indexer) df
  = match df !! i with
    | Some r => r :: take_rows indexer df
    | None => take_rows indexer df
    end.
Proof. reflexivity. Qed.

Lemma take_rows_app {A : Type} (indexer1 indexer2 : list nat) (df : list A) :
  take_rows (indexer1 ++ indexer2) df = take_rows indexer1 df ++ take_rows indexer2 df.
Proof.
  induction indexer1 as [|i indexer1 IH]; [reflexivity|].
  cbn [app]. rewrite !take_rows_cons, IH. now destruct (df !! i).
Qed.

Lemma take_rows_rev {A : Type} (indexer : list nat) (df : list A) :
  take_rows (rev indexer) df = rev (take_rows indexer df).
Proof.
  induction indexer as [|i indexer IH]; [reflexivity|].
  cbn [rev]. rewrite take_rows_app, IH, !take_rows_cons.
  destruct (df !! i); cbn [rev]; [reflexivity|]. change (take_rows [] df) with (@nil A).
  now rewrite app_nil_r.
Qed.

(** Taking rows through a second indexer: when [df'] holds, position by
    position, the rows of [df] that [indexer] names. *)
Lemma take_rows_through {A : Type} (positions indexer : list nat) (df df' : list A) :
  length df' = length indexer ->
  (forall j i, indexer !! j = Some i -> df !! i = df' !! j) ->
  take_rows (take_rows positions indexer) df = take_rows positions df'.
Proof.
  intros Hlen Hrows. induction positions as [|j positions IH]; [reflexivity|].
  rewrite !take_rows_cons. destruct (indexer !! j) as [i|] eqn:Hj.
  - rewrite take_rows_cons, (Hrows j i Hj), IH. reflexivity.
  - apply lookup_ge_None in Hj. rewrite <- Hlen in Hj.
    apply lookup_ge_None in Hj. now rewrite Hj.
Qed.

Lemma split_nan_cons (start : nat) (k : option Z) (rest : list (option Z)) :
  split_nan start (k :: rest)
  = match k with
    | Some z => ((start, z) :: fst (split_nan (S start) rest),
                 snd (split_nan (S start) rest))
    | None => (fst (split_nan (S start) rest),
               start :: snd (split_nan (S start) rest))
    end.
Proof. cbn [split_nan]. destruct (split_nan (S start) rest), k; reflexivity. Qed.

(** Every position is among the numbers or among the missing keys. *)
Lemma split_nan_perm (start : nat) (items : list (option Z)) :
  map fst (fst (split_nan start items)) ++ snd (split_nan start items)
  ≡ₚ seq start (length items).
Proof.
  revert start. induction items as [|k rest IH]; intros start; [reflexivity|].
  rewrite split_nan_cons. cbn [length seq]. destruct k; cbn [fst snd map app].
  - now rewrite IH.
  - rewrite <- Permutation_middle. now rewrite IH.
Qed.

Lemma split_nan_numbers (start : nat) (items : list (option Z)) :
  Forall (fun iz => (start <= fst iz)%nat
                    /\ items !! (fst iz - start)%nat = Some (Some (snd iz)))
         (fst (split_nan start items)).
Proof.
  revert start. induction items as [|k rest IH]; intros start; [constructor|].
  rewrite split_nan_cons.
  assert (Hrest : Forall (fun iz => (start <= fst iz)%nat
                    /\ (k :: rest) !! (fst iz - start)%nat = Some (Some (snd iz)))
                    (fst (split_nan (S start) rest))).
  { eapply Forall_impl; [apply IH|]. intros [i z] [Hi Hz]. cbn [fst snd] in *.
    split; [lia|]. replace (i - start)%nat with (S (i - S start)) by lia. exact Hz. }
  destruct k; cbn [fst]; [|exact Hrest].
  constructor; [|exact Hrest]. cbn [fst snd]. split; [lia|].
  now rewrite Nat.sub_diag.
Qed.

Lemma split_nan_missing (start : nat) (items : list (option Z)) :
  Forall (fun i => (start <= i)%nat /\ items !! (i - start)%nat = Some None)
         (snd (split_nan start items)).
Proof.
  revert start. induction items as [|k rest IH]; intros start; [constructor|].
  rewrite split_nan_cons.
  assert (Hrest : Forall (fun i => (start <= i)%nat
                    /\ (k :: rest) !! (i - start)%nat = Some None)
                    (snd (split_nan (S start) rest))).
  { eapply Forall_impl; [apply IH|]. intros i [Hi Hz].
    split; [lia|]. replace (i - start)%nat with (S (i - S start)) by lia. exact Hz. }
  destruct k; cbn [snd]; [exact Hrest|].
  constructor; [|exact Hrest]. split; [lia|]. now rewrite Nat.sub_diag.
Qed.

Lemma split_nan_keys (items : list (option Z)) :
  Forall (fun iz => items !! fst iz = Some (Some (snd iz))) (fst (split_nan 0 items)).
Proof.
  eapply Forall_impl; [apply (split_nan_numbers 0 items)|].
  intros [i z] [_ Hz]. cbn [fst snd] in *. now rewrite Nat.sub_0_r in Hz.
Qed.

(** The keys at the positions of numbers are those numbers. *)
Lemma numbers_lookup (items : list (option Z)) (numbered : list (nat * Z)) (j i : nat) :
  Forall (fun iz => items !! fst iz = Some (Some (snd iz))) numbered ->
  map fst numbered !! j = Some i ->
  items !! i = map Some (map snd numbered) !! j.
Proof.
  intros Hall Hj.
  change (map fst ?l) with (fst <$> l) in Hj.
  change (map Some (map snd ?l)) with (Some <$> (snd <$> l)).
  rewrite list_lookup_fmap in Hj. rewrite !list_lookup_fmap.
  destruct (numbered !! j) as [[i' z]|] eqn:Hnon; [|discriminate].
  injection Hj as <-. rewrite Forall_lookup in Hall.
  exact (Hall j _ Hnon).
Qed.

Lemma nargsort_unfold (argsort : list Z -> list nat) (keys : list (option Z)) :
  nargsort argsort keys
  = rev (take_rows (argsort (non_nans keys)) (rev (map fst (fst (split_nan 0 keys)))))
    ++ snd (split_nan 0 keys).
Proof. unfold nargsort, non_nans. now destruct (split_nan 0 keys). Qed.

Lemma non_nans_length (keys : list (option Z)) :
  length (non_nans keys) = length (fst (split_nan 0 keys)).
Proof. unfold non_nans. now rewrite length_rev, length_map. Qed.

Lemma ascending_cons (a : Z) (keys : list Z) :
  ascending (a :: keys) = true
  <-> Forall (fun b => a <= b) keys /\ ascending keys = true.
Proof.
  revert a. induction keys as [|b keys IH]; intros a.
  - cbn. split; [intros _; split; [constructor|reflexivity]|reflexivity].
  - change (ascending (a :: b :: keys)) with ((a <=? b) && ascending (b :: keys)).
    rewrite andb_true_iff, Z.leb_le. split.
    + intros [Hab Hrest]. split; [|exact Hrest].
      constructor; [exact Hab|]. apply IH in Hrest as [Hall _].
      eapply Forall_impl; [exact Hall|]. cbn. lia.
    + intros [Hall Hrest]. split; [|exact Hrest]. now inversion Hall.
Qed.

(** Ascending numbers, read backwards and followed by missing keys, are in
    descending order with the missing keys last. *)
Lemma descending_rev_ascending (numbers : list Z) (missing : nat) :
  ascending numbers = true ->
  descending (map Some (rev numbers) ++ replicate missing None) = true.
Proof.
  intros Hasc.
  assert (Hnone : forall n, descending (replicate n (@None Z)) = true).
  { induction n as [|n IH]; [reflexivity|]. cbn [replicate]. apply descending_cons.
    split; [|exact IH]. apply Forall_forall. intros b Hb.
    apply elem_of_replicate in Hb as [-> _]. reflexivity. }
  assert (Hgen : forall tail : list (option Z),
             descending tail = true ->
             Forall (fun b => forall a, a ∈ numbers -> precedes (Some a) b = true) tail ->
             descending (map Some (rev numbers) ++ tail) = true).
  { induction numbers as [|a numbers IH]; intros tail Htail Hall; [exact Htail|].
    apply ascending_cons in Hasc as [Hle Hasc].
    cbn [rev]. rewrite map_app, <- app_assoc. cbn [map app].
    apply IH; [exact Hasc| |].
    - apply descending_cons. split; [|exact Htail].
      eapply Forall_impl; [exact Hall|]. intros b Hb. apply Hb. now left.
    - constructor.
      + intros c Hc. rewrite Forall_forall in Hle. cbn. apply Z.leb_le.
        apply Hle. exact Hc.
      + eapply Forall_impl; [exact Hall|]. intros b Hb c Hc. apply Hb. now right. }
  apply Hgen; [apply Hnone|].
  apply Forall_forall. intros b Hb. apply elem_of_replicate in Hb as [-> _].
  reflexivity.
Qed.

Section Nargsort.

Variable argsort : list Z -> list nat.
Variable keys : list (option Z).
Hypothesis argsort_perm : argsort (non_nans keys) ≡ₚ seq 0 (length (non_nans keys)).

(** [nargsort] names every position once. *)
Lemma nargsort_perm : nargsort argsort keys ≡ₚ seq 0 (length keys).
Proof.
  rewrite nargsort_unfold, <- Permutation_rev.
  rewrite take_rows_perm.
  - rewrite <- Permutation_rev. apply split_nan_perm.
  - now rewrite length_rev, length_map, <- non_nans_length.
Qed.

(** The keys at the head of [nargsort]: the numbers as numpy ordered them,
    read backwards. *)
Lemma nargsort_head_keys :
  take_rows (rev (take_rows (argsort (non_nans keys))
                            (rev (map fst (fst (split_nan 0 keys)))))) keys
  = map Some (rev (take_rows (argsort (non_nans keys)) (non_nans keys))).
Proof.
  rewrite take_rows_rev.
  rewrite (take_rows_through _ _ keys (map Some (non_nans keys))).
  - now rewrite <- take_rows_map, map_rev.
  - unfold non_nans. now rewrite !length_map, !length_rev, !length_map.
  - intros j i Hj. unfold non_nans. rewrite <- !map_rev in *.
    apply numbers_lookup; [|exact Hj].
    apply Forall_rev, split_nan_keys.
Qed.

(** The keys at its tail are missing. *)
Lemma nargsort_tail_keys :
  take_rows (snd (split_nan 0 keys)) keys
  = replicate (length (snd (split_nan 0 keys))) None.
Proof.
  pose proof (split_nan_missing 0 keys) as Hall.
  induction Hall as [|i missing [_ Hi] _ IH]; [reflexivity|].
  rewrite take_rows_cons. rewrite Nat.sub_0_r in Hi. rewrite Hi.
  cbn [length replicate]. now rewrite IH.
Qed.

Lemma nargsort_keys :
  take_rows (nargsort argsort keys) keys
  = map Some (rev (take_rows (argsort (non_nans keys)) (non_nans keys)))
    ++ replicate (length (snd (split_nan 0 keys))) None.
Proof.
  now rewrite nargsort_unfold, take_rows_app, nargsort_head_keys, nargsort_tail_keys.
Qed.

Lemma nargsort_numbers_length :
  length (take_rows (argsort (non_nans keys)) (non_nans keys))
  = length (fst (split_nan 0 keys)).
Proof. now rewrite (take_rows_perm _ _ argsort_perm), non_nans_length. Qed.

(** With an ascending argsort underneath, [nargsort] keeps pandas' promise. *)
Lemma nargsort_is_argsort :
  is_ascending_argsort (non_nans keys) (argsort (non_nans keys)) ->
  is_argsort keys (nargsort argsort keys).
Proof.
  intros [_ Hasc]. split; [apply nargsort_perm|].
  rewrite nargsort_keys. now apply descending_rev_ascending.
Qed.

End Nargsort.

(** ** numpy's network for at most four keys *)

Ltac compare_lanes :=
  repeat match goal with
         | |- context [Z.ltb ?x ?y] => destruct (Z.ltb_spec x y)
         end.

Lemma argsort_n_ascending (keys : list Z) :
  (length keys <= 4)%nat -> is_ascending_argsort keys (Simd.argsort_n keys).
Proof.
  destruct keys as [|a [|b [|c [|d [|e keys]]]]]; cbn [length]; intros Hlen;
    [| | | | |lia];
    unfold is_ascending_argsort, Simd.argsort_n, Simd.sort_reg, Simd.cmp_merge,
      Simd.load, Simd.lt; cbn [lookup list_lookup length firstn];
    compare_lanes;
    cbn [omap list_omap Simd.arg_of take_rows lookup list_lookup ascending length seq];
    (split; [by_evaluation|rewrite ?andb_true_iff, ?Z.leb_le; repeat split; lia]).
Qed.

Lemma numpy_argsort_ascending (longer : list Z -> list nat) (keys : list Z) :
  ((4 < length keys)%nat -> is_ascending_argsort keys (longer keys)) ->
  is_ascending_argsort keys (numpy_argsort longer keys).
Proof.
  intros Hlonger. unfold numpy_argsort.
  destruct (length keys <=? 1)%nat eqn:H1.
  - apply Nat.leb_le in H1.
    destruct keys as [|a [|b keys]]; [split; reflexivity|split; reflexivity|].
    cbn [length] in H1. lia.
  - destruct (length keys <=? 4)%nat eqn:H4.
    + apply argsort_n_ascending. now apply Nat.leb_le.
    + apply Hlonger. apply Nat.leb_gt in H4. lia.
Qed.

(** ** The rows in the order of [nargsort] *)

Lemma split_nan_none (start : nat) (items : list (option Z)) :
  fst (split_nan start items) = [] -> Forall (fun k => k = None) items.
Proof.
  revert start. induction items as [|k rest IH]; intros start; [constructor|].
  rewrite split_nan_cons. destruct k; cbn [fst]; [discriminate|].
  intros Hrest. constructor; [reflexivity|]. now apply (IH (S start)).
Qed.

(** The rows at the positions of the missing keys are the rows without a
    number, in fetch order. *)
Lemma take_rows_missing (pre df : list (detail_row (option Z))) :
  take_rows (snd (split_nan (length pre) (map net_buy df))) (pre ++ df)
  = filter (fun r => net_buy r = None) df.
Proof.
  revert pre. induction df as [|r df IH]; intros pre; [reflexivity|].
  cbn [map]. rewrite split_nan_cons, filter_cons.
  specialize (IH (pre ++ [r])). rewrite length_app, Nat.add_1_r, <- app_assoc in IH.
  cbn [app] in IH.
  destruct (net_buy r) as [z|] eqn:Hr; cbn [snd].
  - rewrite decide_False by discriminate. exact IH.
  - rewrite decide_True by reflexivity.
    rewrite take_rows_cons, list_lookup_middle by reflexivity. now rewrite IH.
Qed.

Lemma filter_missing_numbers (rows : list (detail_row (option Z))) (numbers : list Z) :
  map net_buy rows = map Some numbers ->
  filter (fun r => net_buy r = None) rows = [].
Proof.
  revert numbers. induction rows as [|r rows IH]; intros numbers Hkeys; [reflexivity|].
  destruct numbers as [|z numbers]; [discriminate|]. cbn [map] in Hkeys.
  injection Hkeys as Hr Hrows. rewrite filter_cons, decide_False by congruence.
  now apply (IH numbers).
Qed.

Lemma filter_missing_twice (rows : list (detail_row (option Z))) :
  filter (fun r => net_buy r = None) (filter (fun r => net_buy r = None) rows)
  = filter (fun r => net_buy r = None) rows.
Proof.
  induction rows as [|r rows IH]; [reflexivity|].
  rewrite filter_cons. destruct (decide (net_buy r = None)) as [Hr|Hr]; [|exact IH].
  rewrite filter_cons, decide_True by exact Hr. now rewrite IH.
Qed.

(** In keys that are numbers first and missing last, a missing key stands
    after every number. *)
Lemma numbers_before_missing (numbers : list Z) (missing p q : nat) (z : Z) :
  (map Some numbers ++ replicate missing None) !! p = Some None ->
  (map Some numbers ++ replicate missing None) !! q = Some (Some z) ->
  (q < p)%nat.
Proof.
  intros Hp Hq.
  assert (Hlen : length (map Some numbers) = length numbers) by apply length_map.
  destruct (Nat.lt_ge_cases p (length numbers)) as [Hlt|Hge].
  - rewrite lookup_app_l in Hp by lia.
    change (map Some numbers) with (Some <$> numbers) in Hp.
    rewrite list_lookup_fmap in Hp. destruct (numbers !! p); discriminate.
  - destruct (Nat.lt_ge_cases q (length numbers)) as [Hlt|Hge']; [lia|].
    rewrite lookup_app_r in Hq by lia.
    apply lookup_replicate in Hq as [Hq _]. discriminate.
Qed.

Section NargsortRows.

Variable argsort : list Z -> list nat.
Variable df : list (detail_row (option Z)).
Hypothesis argsort_perm :
  argsort (non_nans (map net_buy df))
  ≡ₚ seq 0 (length (non_nans (map net_buy df))).

Lemma sort_values_nargsort_perm : sort_values (nargsort argsort) df ≡ₚ df.
Proof.
  unfold sort_values. apply take_rows_perm.
  rewrite <- (length_map net_buy). now apply nargsort_perm.
Qed.

Lemma sort_values_nargsort_keys :
  map net_buy (sort_values (nargsort argsort) df)
  = map Some (rev (take_rows (argsort (non_nans (map net_buy df)))
                             (non_nans (map net_buy df))))
    ++ replicate (length (snd (split_nan 0 (map net_buy df)))) None.
Proof. unfold sort_values. now rewrite take_rows_map, nargsort_keys. Qed.

(** The rows without a number close the ranking, in fetch order. *)
Lemma sort_values_nargsort_missing :
  filter (fun r => net_buy r = None) (sort_values (nargsort argsort) df)
  = filter (fun r => net_buy r = None) df.
Proof.
  unfold sort_values. rewrite nargsort_unfold, take_rows_app, filter_app.
  rewrite (filter_missing_numbers _
             (rev (take_rows (argsort (non_nans (map net_buy df)))
                             (non_nans (map net_buy df))))).
  - cbn [app]. pose proof (take_rows_missing [] df) as Hmissing.
    cbn [length app] in Hmissing. rewrite Hmissing. apply filter_missing_twice.
  - rewrite take_rows_map. apply nargsort_head_keys.
Qed.

(** As soon as one row has a number, the first row of the ranking has one. *)
Lemma sort_values_nargsort_top (r : detail_row (option Z)) :
  r ∈ df -> net_buy r <> None ->
  exists top z, sort_values (nargsort argsort) df !! 0%nat = Some top
                /\ net_buy top = Some z.
Proof.
  intros Hr Hnum.
  pose proof sort_values_nargsort_keys as Hkeys.
  pose proof (nargsort_numbers_length argsort (map net_buy df) argsort_perm) as Hlen.
  destruct (fst (split_nan 0 (map net_buy df))) as [|iz numbered] eqn:Hsplit.
  - exfalso. apply Hnum.
    pose proof (split_nan_none 0 (map net_buy df) Hsplit) as Hall.
    rewrite Forall_forall in Hall. apply Hall.
    change (map net_buy df) with (net_buy <$> df). now apply list_elem_of_fmap_2.
  - destruct (rev (take_rows _ _)) as [|z numbers] eqn:Hrev.
    { apply (f_equal (@length Z)) in Hrev. rewrite length_rev, Hlen in Hrev.
      discriminate. }
    destruct (sort_values (nargsort argsort) df) as [|top ranking]; [discriminate|].
    exists top, z. split; [reflexivity|]. cbn [map app] in Hkeys. congruence.
Qed.

End NargsortRows.

(** ** The claims on the ranking *)

(** C4, as amended.  pandas ranks through [nargsort], numpy's argsort
    underneath: an array of at most four numbers goes through the network, a
    longer one through numpy's sort of longer arrays, of which only its being
    an ascending argsort of that array is assumed.  The ranking is then a
    rearrangement of the whole frame with the net buy amounts in descending
    order; the column of amounts is the one a stable sort gives; the records
    without an amount close the ranking in fetch order; when the order
    happens to keep the fetch order of every tie the ranking is the stable
    one; and for the amounts 5, 100, -3, 100 the two records tied at 100 come
    first in fetch order. *)
Theorem nargsort_descending_rearrangement (longer : list Z -> list nat)
    (df : list (detail_row (option Z))) :
  let numbers := non_nans (map net_buy df) in
  let ranking := sort_values (nargsort (numpy_argsort longer)) df in
  ((4 < length numbers)%nat -> is_ascending_argsort numbers (longer numbers)) ->
  ranking ≡ₚ df
  /\ descending (map net_buy ranking) = true
  /\ map net_buy ranking = map net_buy (sort_values stable_engine df)
  /\ filter (fun r => net_buy r = None) ranking = filter (fun r => net_buy r = None) df
  /\ (stable (map net_buy df) (nargsort (numpy_argsort longer) (map net_buy df)) ->
      ranking = sort_values stable_engine df)
  /\ (forall a b c d : detail_row (option Z),
        df = [a; b; c; d] ->
        map net_buy df = [Some 5; Some 100; Some (-3); Some 100] ->
        ranking = [b; d; a; c]).
Proof.
  intros numbers ranking Hlonger.
  pose proof (numpy_argsort_ascending longer numbers Hlonger) as Hnumpy.
  subst numbers ranking.
  assert (Hsort : is_argsort (map net_buy df)
                    (nargsort (numpy_argsort longer) (map net_buy df))).
  { apply nargsort_is_argsort; [exact (proj1 Hnumpy)|exact Hnumpy]. }
  pose proof (stable_engine_is_argsort (map net_buy df)) as Hstable.
  split; [now apply sort_values_perm|]. split; [now apply sort_values_descending|].
  split; [|split; [|split]].
  - apply descending_unique.
    + rewrite (sort_values_perm _ df Hsort).
      now rewrite (sort_values_perm stable_engine df Hstable).
    + now apply sort_values_descending.
    + now apply sort_values_descending.
  - apply sort_values_nargsort_missing.
  - intros Hties. unfold sort_values.
    now rewrite (stable_argsort_unique _ _ Hsort Hties).
  - intros a b c d -> Hkeys. unfold sort_values. rewrite Hkeys. reflexivity.
Qed.

Lemma nargsort_descending_rearrangement_witness :
  sort_values (nargsort Sample.numpy) (coerce Sample.parse Sample.detail)
  ≡ₚ coerce Sample.parse Sample.detail
  /\ descending (map net_buy (sort_values (nargsort Sample.numpy)
                                          (coerce Sample.parse Sample.detail))) = true
  /\ filter (fun r => net_buy r = None)
            (sort_values (nargsort Sample.numpy) (coerce Sample.parse Sample.detail))
     = filter (fun r => net_buy r = None) (coerce Sample.parse Sample.detail).
Proof.
  destruct (nargsort_descending_rearrangement Sample.long_argsort
              (coerce Sample.parse Sample.detail))
    as (Hperm & Hdesc & _ & Hmissing & _).
  - intros _. split; [by_evaluation|reflexivity].
  - split; [exact Hperm|]. split; [exact Hdesc|exact Hmissing].
Defined.

(** C4 as worded fails on the net buy amounts 1, 1, 2, 100: the two records
    tied at 1 leave the network in the reverse of their fetch order. *)
Lemma nargsort_ties_counterexample :
  map net_buy Sample.tied_low = [Some 1; Some 1; Some 2; Some 100]
  /\ map name (sort_values (nargsort Sample.numpy) Sample.tied_low)
     = ["D"; "C"; "B"; "A"]
  /\ ~ stable (map net_buy Sample.tied_low)
              (nargsort Sample.numpy (map net_buy Sample.tied_low)).
Proof.
  split; [reflexivity|]. split; [reflexivity|].
  intros Hstable.
  specialize (Hstable 2%nat 3%nat 1%nat 0%nat ltac:(lia) eq_refl eq_refl eq_refl).
  lia.
Qed.

(** The sort of longer arrays has no part in it. *)
Example nargsort_ties_any_numpy (longer : list Z -> list nat) :
  map name (sort_values (nargsort (numpy_argsort longer)) Sample.tied_low)
  = ["D"; "C"; "B"; "A"].
Proof. reflexivity. Qed.

(** On the amounts 5, 100, -3, 100 the two records tied at 100 keep their
    order. *)
Example nargsort_ties_example :
  map name (sort_values (nargsort Sample.numpy) Sample.tied) = ["B"; "D"; "A"; "C"].
Proof. reflexivity. Qed.

(** A stable sort keeps the order of every tie. *)
Example stable_ties_example :
  map name (sort_values stable_engine Sample.tied) = ["B"; "D"; "A"; "C"]
  /\ map name (sort_values stable_engine Sample.tied_low) = ["D"; "C"; "A"; "B"].
Proof. split; reflexivity. Qed.

Lemma to_numeric_missing (parse : string -> option Z) (c : cell) :
  to_numeric parse c = None
  <-> c = CMissing \/ exists s, c = CStr s /\ parse s = None.
Proof.
  destruct c as [z|s|]; cbn.
  - split; [discriminate|intros [H|(s & H & _)]; discriminate].
  - split; [intros H; right; now exists s|].
    intros [H|(s' & H & Hs)]; [discriminate|]. now injection H as ->.
  - split; [now left|reflexivity].
Qed.

Lemma coerce_net_buy (parse : string -> option Z) (df : list (detail_row cell)) :
  map net_buy (coerce parse df) = map (fun r => to_numeric parse (net_buy r)) df.
Proof. unfold coerce. rewrite map_map. reflexivity. Qed.

(** C9.  Coercion turns text that is no number, and missing cells, into
    missing keys without raising, and the ranking is made on these keys: it
    is the coerced image of the fetched rows taken in the order that
    [nargsort] gives for the coerced cells.  Whatever order numpy gives the
    numbers, as long as it names each of them once: in the ranking of a frame
    that has rows, every record whose cell is missing or no number stands
    after every record whose cell is a number; the top entry is the first row
    of the ranking and exists, and has a number as soon as one record has;
    the top ten are its first ten rows, all of them when there are fewer. *)
Theorem ranking_missing_last_top_ten (parse : string -> option Z)
    (argsort : list Z -> list nat) (df : list (detail_row cell)) :
  let numeric := fun r : detail_row cell => to_numeric parse (net_buy r) in
  let order := nargsort argsort (map numeric df) in
  let ranking := sort_values (nargsort argsort) (coerce parse df) in
  df <> [] ->
  argsort (non_nans (map numeric df)) ≡ₚ seq 0 (length (non_nans (map numeric df))) ->
  (forall c : cell,
      to_numeric parse c = None
      <-> c = CMissing \/ exists s, c = CStr s /\ parse s = None)
  /\ map net_buy (coerce parse df) = map numeric df
  /\ order ≡ₚ seq 0 (length df)
  /\ ranking = coerce parse (take_rows order df)
  /\ (forall (p q : nat) (a b : detail_row cell),
        take_rows order df !! p = Some a -> take_rows order df !! q = Some b ->
        numeric a = None -> numeric b <> None -> (q < p)%nat)
  /\ (exists top,
        top1_stock (nargsort argsort) (coerce parse df) = Ret top
        /\ ranking !! 0%nat = Some top
        /\ ((exists r, r ∈ df /\ numeric r <> None) -> net_buy top <> None))
  /\ top10_df (nargsort argsort) (coerce parse df) = firstn 10 ranking
  /\ length (top10_df (nargsort argsort) (coerce parse df)) = Nat.min 10 (length df).
Proof.
  intros numeric order ranking Hrows Hperm.
  pose proof (coerce_net_buy parse df) as Hkeys. fold numeric in Hkeys.
  assert (Hperm' : argsort (non_nans (map net_buy (coerce parse df)))
                   ≡ₚ seq 0 (length (non_nans (map net_buy (coerce parse df)))))
    by now rewrite Hkeys.
  assert (Horder : order ≡ₚ seq 0 (length df)).
  { unfold order. rewrite <- (length_map numeric). now apply nargsort_perm. }
  assert (Hranking : ranking = coerce parse (take_rows order df)).
  { unfold ranking, sort_values, order. rewrite Hkeys. unfold coerce.
    now rewrite take_rows_map. }
  assert (Hall : ranking ≡ₚ coerce parse df) by now apply sort_values_nargsort_perm.
  split; [apply to_numeric_missing|]. split; [exact Hkeys|]. split; [exact Horder|].
  split; [exact Hranking|]. split; [|split; [|split]].
  - intros p q a b Hp Hq Ha Hb.
    pose proof (nargsort_keys argsort (map numeric df)) as Hcol.
    fold order in Hcol. rewrite <- take_rows_map in Hcol.
    destruct (numeric b) as [z|] eqn:Hz; [|congruence].
    eapply (numbers_before_missing _ _ p q z); rewrite <- Hcol;
      change (map numeric ?l) with (numeric <$> l); rewrite list_lookup_fmap.
    + rewrite Hp. cbn. now rewrite Ha.
    + rewrite Hq. cbn. now rewrite Hz.
  - destruct ranking as [|top rest] eqn:Hlist.
    { apply Permutation_nil_l in Hall. destruct df; [congruence|discriminate]. }
    exists top. split; [unfold top1_stock; fold ranking; now rewrite Hlist|].
    split; [reflexivity|].
    intros (r & Hr & Hnum).
    destruct (sort_values_nargsort_top argsort (coerce parse df) Hperm'
                (DetailRow (code r) (name r) (close r) (change r)
                           (to_numeric parse (net_buy r)) (turnover r) (reason r)))
      as (top' & z & Htop & Hz).
    + unfold coerce. change (map ?f df) with (f <$> df).
      apply list_elem_of_fmap. now exists r.
    + exact Hnum.
    + fold ranking in Htop. rewrite Hlist in Htop. injection Htop as <-. congruence.
  - reflexivity.
  - unfold top10_df, head. fold ranking.
    rewrite length_firstn, Hall, coerce_length. reflexivity.
Qed.

Lemma sample_detail_argsort :
  is_argsort (map net_buy (coerce Sample.parse Sample.detail))
             (stable_engine (map net_buy (coerce Sample.parse Sample.detail))).
Proof. split; [by_evaluation|reflexivity]. Defined.


(** Both records of 600519 are in the first ten of the sample day. *)
Example top10_keeps_repeated_code :
  map code (top10_df stable_engine (coerce Sample.parse Sample.detail))
  = ["601318"; "600036"; "600276"; "000001"; "600519"; "601012"; "600519";
     "000333"; "000002"; "002594"].
Proof. reflexivity. Qed.

Lemma ranking_missing_last_top_ten_witness :
  map net_buy (coerce Sample.parse Sample.detail)
  = map (fun r => to_numeric Sample.parse (net_buy r)) Sample.detail
  /\ (exists top,
        top1_stock (nargsort Sample.numpy) (coerce Sample.parse Sample.detail) = Ret top
        /\ sort_values (nargsort Sample.numpy) (coerce Sample.parse Sample.detail)
           !! 0%nat = Some top
        /\ net_buy top <> None)
  /\ length (top10_df (nargsort Sample.numpy) (coerce Sample.parse Sample.detail))
     = Nat.min 10 (length Sample.detail).
Proof.
  assert (Hrows : Sample.detail <> []) by discriminate.
  assert (Hperm :
    Sample.numpy (non_nans (map (fun r => to_numeric Sample.parse (net_buy r))
                                Sample.detail))
    ≡ₚ seq 0 (length (non_nans (map (fun r => to_numeric Sample.parse (net_buy r))
                                    Sample.detail)))) by by_evaluation.
  destruct (ranking_missing_last_top_ten Sample.parse Sample.numpy Sample.detail
              Hrows Hperm)
    as (_ & Hkeys & _ & _ & _ & (top & Htop & Hfirst & Hnum) & _ & Hlength).
  split; [exact Hkeys|]. split; [|exact Hlength].
  exists top. split; [exact Htop|]. split; [exact Hfirst|].
  apply Hnum. eexists. split; [apply list_elem_of_In; left; reflexivity|].
  vm_compute. discriminate.
Defined.

(** On the sample day pandas' order is the stable one. *)
Example sample_ranking_nargsort :
  sort_values (nargsort Sample.numpy) (coerce Sample.parse Sample.detail)
  = sort_values stable_engine (coerce Sample.parse Sample.detail).
Proof. reflexivity. Qed.

(** The two records without a number close the ranking of the sample day;
    "77" was read as a number. *)
Example sample_ranking_keys :
  map net_buy (sort_values stable_engine (coerce Sample.parse Sample.detail))
  = [Some 250000000; Some 42000; Some 9999; Some 100; Some 100; Some 77; Some 5;
     Some 0; Some (-3); Some (-120000000); None; None].
Proof. reflexivity. Qed.

(** A frame of three records has a top three, without an error. *)
Example top10_of_three :
  map name (top10_df stable_engine (firstn 3 (coerce Sample.parse Sample.detail)))
  = ["平安银行"; "贵州茅台"; "万科A"].
Proof. reflexivity. Qed.

(* ===================================================================== *)
(** * Properties of the AI panel *)
(* ===================================================================== *)

Lemma ai_analysis_unconfigured (w : world) (detail_df : list (detail_row (option Z)))
    (log : list event) :
  secrets w = None \/ (exists s, secrets w = Some s /\ s !! "openai" = None) ->
  ai_analysis w detail_df log
  = (Ret tt, log ++ [St "error" secrets_error; St "info" secrets_example]).
Proof.
  intros H. unfold ai_analysis.
  assert (Hmissing :
    match secrets w with
    | Some s => match s !! "openai" with Some _ => false | None => true end
    | None => true
    end = true).
  { destruct H as [->|(s & -> & ->)]; reflexivity. }
  rewrite Hmissing. step_prog. now rewrite <- app_assoc.
Qed.

Lemma ai_analysis_configured (w : world) (detail_df : list (detail_row (option Z)))
    (log : list event) (s : gmap string (gmap string string))
    (openai : gmap string string) (key url : string) :
  secrets w = Some s ->
  s !! "openai" = Some openai ->
  openai !! "api_key" = Some key ->
  openai !! "base_url" = Some url ->
  exists req tail,
    snd (ai_analysis w detail_df log) = log ++ ChatCreate req :: tail
    /\ model req = default default_model (openai !! "model")
    /\ api_key req = key
    /\ base_url req = url
    /\ Forall (fun ev => is_chat_call ev = false) tail.
Proof.
  intros Hs Hopenai Hkey Hurl. unfold ai_analysis.
  rewrite Hs. cbn [mbind option_bind]. rewrite !Hopenai.
  change (default ∅ (Some openai)) with openai.
  step_prog. unfold getitem. rewrite Hkey, Hurl.
  eexists. destruct (chat_completions_create w _) as [text|e].
  - eexists. cbn [snd]. split.
    + rewrite <- !app_assoc. cbn [app]. reflexivity.
    + repeat split. repeat constructor.
  - eexists. cbn [snd]. split.
    + rewrite <- !app_assoc. cbn [app]. reflexivity.
    + repeat split. repeat constructor.
Qed.

(** C8.  Without the [openai] section of the secrets (or without any secrets)
    the panel shows the configuration error and its example and calls
    nothing.  With a key and a base URL but no model name, the one call to
    the chat endpoint names the model gpt-3.5-turbo. *)
Theorem ai_analysis_credentials (w : world) (detail_df : list (detail_row (option Z)))
    (log : list event) :
  (secrets w = None \/ (exists s, secrets w = Some s /\ s !! "openai" = None) ->
   ai_analysis w detail_df log
   = (Ret tt, log ++ [St "error" secrets_error; St "info" secrets_example])
   /\ Forall (fun ev => is_chat_call ev = false)
             [St "error" secrets_error; St "info" secrets_example])
  /\ (forall (s : gmap string (gmap string string)) (openai : gmap string string)
             (key url : string),
        secrets w = Some s ->
        s !! "openai" = Some openai ->
        openai !! "api_key" = Some key ->
        openai !! "base_url" = Some url ->
        openai !! "model" = None ->
        exists req tail,
          snd (ai_analysis w detail_df log) = log ++ ChatCreate req :: tail
          /\ model req = "gpt-3.5-turbo"
          /\ api_key req = key
          /\ base_url req = url
          /\ Forall (fun ev => is_chat_call ev = false) tail).
Proof.
  split.
  - intros H. split; [now apply ai_analysis_unconfigured|repeat constructor].
  - intros s openai key url Hs Hopenai Hkey Hurl Hmodel.
    destruct (ai_analysis_configured w detail_df log s openai key url
                Hs Hopenai Hkey Hurl) as (req & tail & Hlog & Hm & Hrest).
    exists req, tail. split; [exact Hlog|]. split; [|exact Hrest].
    now rewrite Hm, Hmodel.
Qed.

Lemma ai_analysis_credentials_witness :
  ai_analysis Sample.unconfigured Sample.tied []
  = (Ret tt, [St "error" secrets_error; St "info" secrets_example])
  /\ exists req tail,
       snd (ai_analysis Sample.configured Sample.tied []) = ChatCreate req :: tail
       /\ model req = "gpt-3.5-turbo".
Proof.
  destruct (ai_analysis_credentials Sample.unconfigured Sample.tied []) as [Hnone _].
  destruct (ai_analysis_credentials Sample.configured Sample.tied []) as [_ Hsome].
  split.
  - apply Hnone. left. reflexivity.
  - destruct (Hsome _ Sample.openai_section "sk-test" "https://api.openai.com/v1"
                eq_refl eq_refl eq_refl eq_refl eq_refl)
      as (req & tail & Hlog & Hmodel & _).
    exists req, tail. split; assumption.
Defined.

(** A configured model name is the one used. *)
Example ai_analysis_named_model :
  let w := Sample.world_with Sample.source true
             (Some (<["openai" := <["model" := "deepseek-chat"]> Sample.openai_section]> ∅)) in
  map (fun ev => match ev with ChatCreate req => model req | _ => EmptyString end)
      (filter (fun ev => is_chat_call ev = true) (snd (ai_analysis w Sample.tied [])))
  = ["deepseek-chat"].
Proof. vm_compute. reflexivity. Qed.

(** A section without the base URL: the lookup raises inside the [try]
    block, the panel reports the failure and no call is made. *)
Example ai_analysis_half_configured :
  ai_analysis Sample.half_configured Sample.tied []
  = (Ret tt, [St "error" ("AI 分析请求失败: '" +:+ Sample.no_key "base_url" +:+ "'")]).
Proof. vm_compute. reflexivity. Qed.

(* ********************************************************************* *)
(** * Part III: further properties *)
(* ********************************************************************* *)

(* ===================================================================== *)
(** * More on the metrics *)
(* ===================================================================== *)

Lemma sum_perm (col1 col2 : list (option Z)) : col1 ≡ₚ col2 -> sum col1 = sum col2.
Proof.
  induction 1 as [|x l1 l2 _ IH|x y l|l1 l2 l3 _ IH1 _ IH2].
  - reflexivity.
  - now rewrite !sum_cons, IH.
  - rewrite !sum_cons. lia.
  - congruence.
Qed.

Lemma jg_buy_total_sum (rows : list jg_row) :
  jg_buy_total (Some rows) = sum (map jg_buy rows).
Proof. now destruct rows. Qed.

Lemma total_stocks_perm {K : Type} (df1 df2 : list (detail_row K)) :
  df1 ≡ₚ df2 -> total_stocks df1 = total_stocks df2.
Proof.
  intros Hperm. unfold total_stocks. rewrite !unique_card. f_equal.
  apply set_eq. intros c. rewrite !elem_of_list_to_set.
  change (map code df1) with (code <$> df1). change (map code df2) with (code <$> df2).
  now rewrite Hperm.
Qed.

(** X1.  The count of distinct stocks depends only on which codes occur in
    the frame: delivering the rows in another order, or a row twice, leaves
    it as it is. *)
Theorem total_stocks_order_independent {K : Type} (df1 df2 : list (detail_row K)) :
  (forall c : string, c ∈ map code df1 <-> c ∈ map code df2) ->
  total_stocks df1 = total_stocks df2.
Proof.
  intros Hcodes. unfold total_stocks. rewrite !unique_card. f_equal.
  apply set_eq. intros c. rewrite !elem_of_list_to_set. apply Hcodes.
Qed.

Lemma total_stocks_order_independent_witness :
  total_stocks (rev Sample.detail ++ Sample.detail) = total_stocks Sample.detail.
Proof.
  apply total_stocks_order_independent. intros c.
  rewrite map_app, map_rev, elem_of_app. split; [|now right].
  intros [H|H]; [|exact H].
  apply list_elem_of_In, in_rev. now apply list_elem_of_In.
Defined.

(** ** The count against the number of rows *)

Lemma unique_from_length (seen col : list string) :
  (length (unique_from seen col) <= length col)%nat.
Proof.
  revert seen. induction col as [|x col IH]; intros seen; cbn [unique_from length].
  - lia.
  - case_bool_decide; [specialize (IH seen)|specialize (IH (x :: seen))];
      cbn [length]; lia.
Qed.

Lemma unique_from_fresh (seen col : list string) :
  NoDup col -> Forall (fun x => x ∉ seen) col -> unique_from seen col = col.
Proof.
  revert seen. induction col as [|x col IH]; intros seen Hnd Hfresh; [reflexivity|].
  apply NoDup_cons in Hnd as [Hx Hnd]. apply Forall_cons in Hfresh as [Hxs Hfresh].
  cbn [unique_from]. rewrite bool_decide_eq_false_2 by assumption.
  f_equal. apply IH; [assumption|].
  rewrite Forall_forall in Hfresh |- *. intros y Hy.
  rewrite elem_of_cons. intros [->|Hys]; [contradiction|]. now apply (Hfresh y).
Qed.

Lemma unique_from_full (seen col : list string) :
  length (unique_from seen col) = length col ->
  NoDup col /\ Forall (fun x => x ∉ seen) col.
Proof.
  revert seen. induction col as [|x col IH]; intros seen Hlen.
  - split; constructor.
  - cbn [unique_from] in Hlen. case_bool_decide as Hx.
    + pose proof (unique_from_length seen col). cbn [length] in Hlen. lia.
    + cbn [length] in Hlen. injection Hlen as Hlen.
      destruct (IH (x :: seen) Hlen) as [Hnd Hfresh].
      rewrite Forall_forall in Hfresh. split.
      * apply NoDup_cons. split; [|assumption].
        intros Hin. apply (Hfresh x Hin). left.
      * constructor; [assumption|]. apply Forall_forall. intros y Hy Hys.
        apply (Hfresh y Hy). now right.
Qed.

(** X2.  The count of stocks never exceeds the number of rows and is at least
    one for a frame with rows; it is the number of rows exactly when no code
    is listed twice; and the coercion of the net buy column leaves it
    unchanged. *)
Theorem total_stocks_bounds (parse : string -> option Z) (df : list (detail_row cell)) :
  (total_stocks df <= length df)%nat
  /\ (df <> [] -> (1 <= total_stocks df)%nat)
  /\ (total_stocks df = length df <-> NoDup (map code df))
  /\ total_stocks (coerce parse df) = total_stocks df.
Proof.
  unfold total_stocks. split; [|split; [|split]].
  - pose proof (unique_from_length [] (map code df)) as H.
    now rewrite length_map in H.
  - destruct df as [|r df]; [congruence|]. intros _.
    unfold unique. cbn [map unique_from].
    rewrite bool_decide_eq_false_2 by (intros H; inversion H). cbn [length]. lia.
  - rewrite <- (length_map code df) at 1. split.
    + intros H. now apply (unique_from_full [] (map code df)).
    + intros H. unfold unique. rewrite unique_from_fresh; [reflexivity|assumption|].
      apply Forall_forall. intros x _ Hx. inversion Hx.
  - now rewrite coerce_code.
Qed.

Lemma total_stocks_bounds_witness :
  (1 <= total_stocks Sample.detail)%nat.
Proof.
  apply (proj1 (proj2 (total_stocks_bounds Sample.parse Sample.detail))).
  discriminate.
Defined.

(** ** The two connect channels *)





(* ===================================================================== *)
(** * More on [get_lhb_data] *)
(* ===================================================================== *)

Lemma load_jg_fails (ak : akshare) (date_str : string) (rows : list (detail_row cell))
    (e : exn) (log : list event) :
  stock_lhb_detail_em ak date_str date_str = Returns (Some rows) ->
  rows <> [] ->
  stock_lhb_jgmmtj_em ak date_str date_str = Fails e ->
  get_lhb_data ak date_str log
  = (Ret (None, None, None),
     log ++ [AkDetail date_str date_str; AkJg date_str date_str; load_error_event e]).
Proof.
  intros H Hrows Hjg. unfold get_lhb_data. step_prog.
  rewrite H, (nonempty_frame rows Hrows), Hjg. now rewrite <- !app_assoc.
Qed.

Lemma load_yyb_fails (ak : akshare) (date_str : string) (rows : list (detail_row cell))
    (jg_df : option (list jg_row)) (e : exn) (log : list event) :
  stock_lhb_detail_em ak date_str date_str = Returns (Some rows) ->
  rows <> [] ->
  stock_lhb_jgmmtj_em ak date_str date_str = Returns jg_df ->
  stock_lhb_hyyyb_em ak date_str date_str = Fails e ->
  get_lhb_data ak date_str log
  = (Ret (None, None, None),
     log ++ [AkDetail date_str date_str; AkJg date_str date_str;
             AkYyb date_str date_str; load_error_event e]).
Proof.
  intros H Hrows Hjg Hyyb. unfold get_lhb_data. step_prog.
  rewrite H, (nonempty_frame rows Hrows), Hjg, Hyyb. now rewrite <- !app_assoc.
Qed.

(** The log of a load, case by case. *)
Lemma load_trace (ak : akshare) (date_str : string) :
  let D := AkDetail date_str date_str in
  let J := AkJg date_str date_str in
  let Y := AkYyb date_str date_str in
  snd (run (get_lhb_data ak date_str))
  = match stock_lhb_detail_em ak date_str date_str with
    | Fails e => [D; load_error_event e]
    | Returns df =>
        if none_or_empty df then [D]
        else
          match stock_lhb_jgmmtj_em ak date_str date_str with
          | Fails e => [D; J; load_error_event e]
          | Returns _ =>
              match stock_lhb_hyyyb_em ak date_str date_str with
              | Fails e => [D; J; Y; load_error_event e]
              | Returns _ => [D; J; Y]
              end
          end
    end.
Proof.
  unfold run, get_lhb_data. step_prog.
  destruct (stock_lhb_detail_em ak date_str date_str) as [df|e]; [|reflexivity].
  destruct (none_or_empty df); [reflexivity|].
  destruct (stock_lhb_jgmmtj_em ak date_str date_str) as [jg_df|e]; [|reflexivity].
  destruct (stock_lhb_hyyyb_em ak date_str date_str) as [yyb_df|e]; reflexivity.
Qed.

(** X4.  A load asks the data source for the one day it was given, start and
    end alike, in the order disclosure, institutions, branches, and each at
    most once.  It stops after the disclosure fetch when that finds nothing,
    and it does not ask for the branches when the institutional fetch has
    raised. *)
Theorem get_lhb_data_calls (ak : akshare) (date_str : string) :
  let log := snd (run (get_lhb_data ak date_str)) in
  (has_data ak date_str = false -> fetches log = [AkDetail date_str date_str])
  /\ (has_data ak date_str = true ->
      (exists e, stock_lhb_jgmmtj_em ak date_str date_str = Fails e) ->
      fetches log = [AkDetail date_str date_str; AkJg date_str date_str])
  /\ (has_data ak date_str = true ->
      (exists jg_df, stock_lhb_jgmmtj_em ak date_str date_str = Returns jg_df) ->
      fetches log = [AkDetail date_str date_str; AkJg date_str date_str;
                     AkYyb date_str date_str]).
Proof.
  cbv zeta. rewrite load_trace. unfold has_data.
  destruct (stock_lhb_detail_em ak date_str date_str) as [df|e].
  - destruct (none_or_empty df); cbn [negb].
    + split; [reflexivity|]. split; discriminate.
    + split; [discriminate|].
      destruct (stock_lhb_jgmmtj_em ak date_str date_str) as [jg_df|e].
      * split; [intros _ [e He]; discriminate|]. intros _ _.
        destruct (stock_lhb_hyyyb_em ak date_str date_str); reflexivity.
      * split; [reflexivity|]. intros _ [jg_df H]. discriminate.
  - split; [reflexivity|]. split; discriminate.
Qed.

Lemma get_lhb_data_calls_witness :
  fetches (snd (run (get_lhb_data Sample.source "20261102")))
  = [AkDetail "20261102" "20261102"]
  /\ fetches (snd (run (get_lhb_data Sample.source_jg_down "20261031")))
     = [AkDetail "20261031" "20261031"; AkJg "20261031" "20261031"]
  /\ fetches (snd (run (get_lhb_data Sample.source "20261031")))
     = [AkDetail "20261031" "20261031"; AkJg "20261031" "20261031";
        AkYyb "20261031" "20261031"].
Proof.
  split; [|split].
  - apply (proj1 (get_lhb_data_calls Sample.source "20261102")). reflexivity.
  - apply (proj1 (proj2 (get_lhb_data_calls Sample.source_jg_down "20261031"))).
    + reflexivity.
    + eexists. reflexivity.
  - apply (proj2 (proj2 (get_lhb_data_calls Sample.source "20261031"))).
    + reflexivity.
    + eexists. reflexivity.
Defined.

(** X5.  When a fetch of the load raises, the load shows one error, the text
    of the exception after the fixed prefix, as its last action and answers
    with three absent frames.  When no fetch raises it shows nothing at all,
    also when the day has no data. *)
Theorem get_lhb_data_error_report (ak : akshare) (date_str : string) :
  let log := snd (run (get_lhb_data ak date_str)) in
  (forall e, first_failure ak date_str = Some e ->
             fst (run (get_lhb_data ak date_str)) = Ret (None, None, None)
             /\ log = fetches log ++ [load_error_event e])
  /\ (first_failure ak date_str = None -> log = fetches log).
Proof.
  cbv zeta. rewrite load_trace. unfold first_failure, run, get_lhb_data. step_prog.
  destruct (stock_lhb_detail_em ak date_str date_str) as [df|e].
  - destruct (none_or_empty df).
    + split; [discriminate|reflexivity].
    + destruct (stock_lhb_jgmmtj_em ak date_str date_str) as [jg_df|e].
      * destruct (stock_lhb_hyyyb_em ak date_str date_str) as [yyb_df|e].
        -- split; [discriminate|reflexivity].
        -- split; [|discriminate]. intros e' [= <-]. split; reflexivity.
      * split; [|discriminate]. intros e' [= <-]. split; reflexivity.
  - split; [|discriminate]. intros e' [= <-]. split; reflexivity.
Qed.

Lemma get_lhb_data_error_report_witness :
  snd (run (get_lhb_data Sample.source_jg_down "20261031"))
  = fetches (snd (run (get_lhb_data Sample.source_jg_down "20261031")))
    ++ [St "error" "获取数据时出错: connection reset"]
  /\ snd (run (get_lhb_data Sample.source "20261101"))
     = fetches (snd (run (get_lhb_data Sample.source "20261101"))).
Proof.
  split.
  - apply (proj1 (get_lhb_data_error_report Sample.source_jg_down "20261031")
             (Exception "connection reset")).
    reflexivity.
  - apply (proj2 (get_lhb_data_error_report Sample.source "20261101")). reflexivity.
Defined.

(* ===================================================================== *)
(** * More on [find_latest_data] *)
(* ===================================================================== *)

Lemma string_length_app (a b : string) :
  String.length (a +:+ b) = (String.length a + String.length b)%nat.
Proof. induction a as [|x a IH]; [reflexivity|]. simpl. f_equal. exact IH. Qed.

Lemma zeros_length (k : nat) :
  String.length (String.concat EmptyString (replicate k "0")) = k.
Proof.
  induction k as [|k IH]; [reflexivity|].
  destruct k as [|k]; [reflexivity|].
  change (replicate (S (S k)) "0") with ("0" :: replicate (S k) "0").
  change (String.concat EmptyString ("0" :: replicate (S k) "0"))
    with ("0" +:+ (EmptyString +:+ String.concat EmptyString (replicate (S k) "0"))).
  rewrite !string_length_app, IH. reflexivity.
Qed.

Lemma zero_pad_length (width : nat) (n : Z) :
  (width <= String.length (Calendar.zero_pad width n))%nat.
Proof.
  unfold Calendar.zero_pad. cbv zeta. rewrite string_length_app, zeros_length. lia.
Qed.

(** The compact date has at least its eight characters. *)
Lemma strftime_compact_length (ordinal : Z) :
  (8 <= String.length (Calendar.strftime_compact ordinal))%nat.
Proof.
  unfold Calendar.strftime_compact. destruct (Calendar.ord2ymd ordinal) as [[y m] d].
  rewrite !string_length_app.
  pose proof (zero_pad_length 4 y). pose proof (zero_pad_length 2 m).
  pose proof (zero_pad_length 2 d). lia.
Qed.

Lemma candidate_nonempty (today i : Z) : candidate today i <> EmptyString.
Proof.
  intros H. pose proof (strftime_compact_length (today - i)) as Hlen.
  unfold candidate in H. rewrite H in Hlen. cbn in Hlen. lia.
Qed.

(** Among the first [k] offsets either none has data or one is the first. *)
Lemma first_hit_cases (hit : nat -> bool) (k : nat) :
  (forall j, (j < k)%nat -> hit j = false)
  \/ exists i, (i < k)%nat /\ hit i = true /\ forall j, (j < i)%nat -> hit j = false.
Proof.
  induction k as [|k [Hnone|(i & Hi & Hhit & Hfirst)]].
  - left. intros j Hj. lia.
  - destruct (hit k) eqn:Hk.
    + right. exists k. split; [lia|]. split; assumption.
    + left. intros j Hj. destruct (decide (j = k)) as [->|Hne]; [assumption|].
      apply Hnone. lia.
  - right. exists i. split; [lia|]. split; assumption.
Qed.

(** X6.  Whatever the data source does, the scan ends without an exception
    and without showing anything: its log is the probes of the disclosure
    endpoint for the offsets 0, 1, ... up to where it stopped, ten at most.
    It answers [(None, None)] after ten probes, or with the date of an offset
    below ten whose probe found data; that date text is never empty. *)
Theorem find_latest_data_sound (today : Z) (ak : akshare) :
  Calendar.MINORD + 9 <= today <= Calendar.MAXORD ->
  exists n : nat,
    (n <= 10)%nat
    /\ snd (run (find_latest_data today ak)) = map (probe_event today) (range n)
    /\ ((n = 10%nat /\ fst (run (find_latest_data today ak)) = Ret (None, None))
        \/ exists i : nat,
             n = S i
             /\ fst (run (find_latest_data today ak))
                = Ret (Some (candidate today (Z.of_nat i)),
                       Some (display (today - Z.of_nat i)))
             /\ has_data ak (candidate today (Z.of_nat i)) = true
             /\ candidate today (Z.of_nat i) <> EmptyString).
Proof.
  intros Hclock.
  assert (Hcal : forall j : nat, (j < 10)%nat -> in_calendar today (Z.of_nat j)).
  { intros j Hj. unfold in_calendar, Calendar.MINORD, Calendar.MAXORD in *. lia. }
  destruct (first_hit_cases (fun j => has_data ak (candidate today (Z.of_nat j))) 10)
    as [Hnone|(i & Hi & Hhit & Hfirst)].
  - exists 10%nat. split; [lia|]. unfold run, find_latest_data.
    rewrite scan_all_miss.
    + split; [reflexivity|]. left. split; reflexivity.
    + apply Forall_range. intros j Hj. split; [now apply Hcal|now apply Hnone].
  - exists (S i). split; [lia|]. unfold run, find_latest_data.
    rewrite (range_split i 10 Hi), scan_first_hit.
    + split; [now rewrite range_S|]. right. exists i.
      split; [reflexivity|]. split; [reflexivity|].
      split; [exact Hhit|apply candidate_nonempty].
    + apply Forall_range. intros j Hj. split; [apply Hcal; lia|now apply Hfirst].
    + now apply Hcal.
    + exact Hhit.
Qed.

Lemma find_latest_data_sound_witness :
  exists n : nat,
    (n <= 10)%nat
    /\ snd (run (find_latest_data Sample.tuesday Sample.source))
       = map (probe_event Sample.tuesday) (range n).
Proof.
  destruct (find_latest_data_sound Sample.tuesday Sample.source) as (n & Hn & Hlog & _).
  - vm_compute. split; discriminate.
  - exists n. split; assumption.
Defined.

(* ===================================================================== *)
(** * More on the ranking *)
(* ===================================================================== *)

(** X7.  Under pandas' promise the first ten rows of the ranking and the rows
    left out make up the frame, and no row left out has a larger net buy
    amount than a row of the first ten; a frame of at most ten rows is shown
    whole. *)
Theorem top10_are_best (engine : list (option Z) -> list nat)
    (df : list (detail_row (option Z))) :
  is_argsort (map net_buy df) (engine (map net_buy df)) ->
  top10_df engine df ++ drop 10 (sort_values engine df) ≡ₚ df
  /\ (forall a b : detail_row (option Z),
        a ∈ top10_df engine df -> b ∈ drop 10 (sort_values engine df) ->
        precedes (net_buy a) (net_buy b) = true)
  /\ ((length df <= 10)%nat -> top10_df engine df ≡ₚ df).
Proof.
  intros Hsort.
  pose proof (sort_values_perm engine df Hsort) as Hperm.
  pose proof (sort_values_descending engine df Hsort) as Hdesc.
  unfold top10_df, head. split; [|split].
  - now rewrite take_drop.
  - intros a b Ha Hb.
    apply list_elem_of_lookup_1 in Ha as [p Hp].
    apply list_elem_of_lookup_1 in Hb as [q Hq].
    rewrite lookup_drop in Hq.
    assert (Hp10 : (p < 10)%nat).
    { apply lookup_lt_Some in Hp. rewrite length_take in Hp. lia. }
    rewrite lookup_take_lt in Hp by assumption.
    apply (descending_lookup (map net_buy (sort_values engine df)) p (10 + q));
      [assumption|lia| |];
      change (map net_buy ?l) with (net_buy <$> l); rewrite list_lookup_fmap;
      [now rewrite Hp|now rewrite Hq].
  - intros Hlen. rewrite firstn_all2; [assumption|]. now rewrite Hperm.
Qed.

Lemma top10_are_best_witness :
  top10_df stable_engine (coerce Sample.parse Sample.detail)
  ++ drop 10 (sort_values stable_engine (coerce Sample.parse Sample.detail))
  ≡ₚ coerce Sample.parse Sample.detail.
Proof.
  apply (proj1 (top10_are_best stable_engine (coerce Sample.parse Sample.detail)
                  sample_detail_argsort)).
Defined.

(** X8.  The shown table has one row for each row of the first ten, in the
    same order: name, code, closing price and change as fetched, and the net
    buy amount as [format_number] writes it, "0" when it is missing.  The
    table fails only when [format_number] fails on one of the amounts. *)
Theorem top10_show_rows (top10 : list (detail_row (option Z))) :
  (forall table : list (list string),
      top10_show top10 = Ret table ->
      length table = length top10
      /\ forall (k : nat) (r : detail_row (option Z)),
           top10 !! k = Some r ->
           exists shown,
             format_number (scalar (net_buy r)) = Ret shown
             /\ table !! k = Some [name r; code r; close r; change r; shown]
             /\ (net_buy r = None -> shown = "0"))
  /\ (forall e : exn,
        top10_show top10 = Raise e ->
        exists r, r ∈ top10 /\ format_number (scalar (net_buy r)) = Raise e).
Proof.
  induction top10 as [|r top10 [IHret IHraise]]; split.
  - intros table [= <-]. split; [reflexivity|]. intros k r Hk. discriminate.
  - discriminate.
  - intros table Htable. cbn [top10_show] in Htable.
    destruct (format_number (scalar (net_buy r))) as [shown|e] eqn:Hshown;
      [|discriminate].
    destruct (top10_show top10) as [rows|e]; [|discriminate].
    injection Htable as <-. destruct (IHret rows eq_refl) as [Hlen Hrows].
    split; [cbn [length]; now rewrite Hlen|].
    intros [|k] r' Hk.
    + injection Hk as <-. exists shown. split; [exact Hshown|]. split; [reflexivity|].
      intros Hnone. rewrite Hnone in Hshown. now injection Hshown as <-.
    + now apply Hrows.
  - intros e Hraise. cbn [top10_show] in Hraise.
    destruct (format_number (scalar (net_buy r))) as [shown|e'] eqn:Hshown.
    + destruct (top10_show top10) as [rows|e'']; [discriminate|].
      injection Hraise as ->. destruct (IHraise e eq_refl) as (r' & Hr' & He).
      exists r'. split; [now right|exact He].
    + injection Hraise as ->. exists r. split; [left|exact Hshown].
Qed.

Lemma top10_show_rows_witness :
  exists table,
    top10_show (top10_df stable_engine (coerce Sample.parse Sample.detail)) = Ret table
    /\ length table = 10%nat.
Proof.
  eexists. split; [vm_compute; reflexivity|].
  apply (proj1 (top10_show_rows
                  (top10_df stable_engine (coerce Sample.parse Sample.detail)))
               _ eq_refl).
Defined.

(* ===================================================================== *)
(** * More on the AI panel *)
(* ===================================================================== *)

Lemma chat_calls_cons (ev : event) (log : list event) :
  chat_calls (ev :: log) = ((if is_chat_call ev then 1 else 0) + chat_calls log)%nat.
Proof.
  unfold chat_calls. rewrite filter_cons.
  destruct (is_chat_call ev); [rewrite decide_True by reflexivity|
                               rewrite decide_False by discriminate]; reflexivity.
Qed.

Lemma chat_calls_app (log1 log2 : list event) :
  chat_calls (log1 ++ log2) = (chat_calls log1 + chat_calls log2)%nat.
Proof. unfold chat_calls. now rewrite filter_app, length_app. Qed.

Ltac count_calls :=
  unfold ai_error_event; rewrite ?chat_calls_cons; cbn [is_chat_call];
  change (chat_calls []) with 0%nat; lia.

Lemma ai_analysis_with_section (w : world) (detail_df : list (detail_row (option Z)))
    (log : list event) (s : gmap string (gmap string string))
    (openai : gmap string string) :
  secrets w = Some s ->
  s !! "openai" = Some openai ->
  ai_analysis w detail_df log
  = match openai !! "api_key" with
    | None => (Ret tt, log ++ [ai_error_event (KeyError (missing_secret w "api_key"))])
    | Some key =>
        match openai !! "base_url" with
        | None =>
            (Ret tt, log ++ [ai_error_event (KeyError (missing_secret w "base_url"))])
        | Some url =>
            let req := ai_request w detail_df openai key url in
            match chat_completions_create w req with
            | Ret text =>
                (Ret tt,
                 log ++ [ChatCreate req; St "success" "分析完成！";
                         St "markdown" "### 🧠 资深游资点评"; St "info" text])
            | Raise e => (Ret tt, log ++ [ChatCreate req; ai_error_event e])
            end
        end
    end.
Proof.
  intros Hs Hopenai. unfold ai_analysis.
  rewrite Hs. cbn [mbind option_bind]. rewrite !Hopenai.
  change (default ∅ (Some openai)) with openai.
  step_prog. unfold getitem, ai_request, top10_df.
  destruct (openai !! "api_key") as [key|]; [|reflexivity].
  destruct (openai !! "base_url") as [url|]; [|reflexivity].
  cbv zeta. destruct (chat_completions_create w _) as [text|e];
    now rewrite <- !app_assoc.
Qed.

(** X9.  With an [openai] section that lacks the key, or has the key and
    lacks the base URL, the lookup raises Streamlit's [KeyError] for that
    entry inside the [try] block: the panel shows one error, the fixed prefix
    followed by the quoted message of that exception, whatever Streamlit
    words it, and nothing else; no call is made. *)
Theorem ai_analysis_missing_entry (w : world) (detail_df : list (detail_row (option Z)))
    (log : list event) (s : gmap string (gmap string string))
    (openai : gmap string string) :
  secrets w = Some s ->
  s !! "openai" = Some openai ->
  (openai !! "api_key" = None ->
   ai_analysis w detail_df log
   = (Ret tt,
      log ++ [St "error" ("AI 分析请求失败: '" +:+ missing_secret w "api_key" +:+ "'")])
   /\ chat_calls (snd (ai_analysis w detail_df log)) = chat_calls log)
  /\ (forall key, openai !! "api_key" = Some key -> openai !! "base_url" = None ->
      ai_analysis w detail_df log
      = (Ret tt,
         log ++ [St "error" ("AI 分析请求失败: '" +:+ missing_secret w "base_url" +:+ "'")])
      /\ chat_calls (snd (ai_analysis w detail_df log)) = chat_calls log).
Proof.
  intros Hs Hopenai.
  rewrite (ai_analysis_with_section w detail_df log s openai Hs Hopenai).
  split.
  - intros ->. split; [reflexivity|]. cbn [snd]. rewrite chat_calls_app. count_calls.
  - intros key -> ->. split; [reflexivity|]. cbn [snd]. rewrite chat_calls_app.
    count_calls.
Qed.

Lemma ai_analysis_missing_entry_witness :
  ai_analysis Sample.half_configured Sample.tied []
  = (Ret tt, [St "error" ("AI 分析请求失败: '" +:+ Sample.no_key "base_url" +:+ "'")]).
Proof.
  apply (proj1 (proj2 (ai_analysis_missing_entry Sample.half_configured Sample.tied []
                         _ (<["api_key" := "sk-test"]> ∅) eq_refl eq_refl)
                  "sk-test" eq_refl eq_refl)).
Defined.

(** X10.  With a key and a base URL the panel sends one request: the
    configured model or the default, the fixed system prompt, the table of at
    most ten rows of the ranking in the user prompt, temperature 0.7.  An
    answer is shown as it comes, after the success line and the heading; an
    exception of the endpoint is reported with its text, and the request is
    not repeated. *)
Theorem ai_analysis_request (w : world) (detail_df : list (detail_row (option Z)))
    (log : list event) (s : gmap string (gmap string string))
    (openai : gmap string string) (key url : string) :
  secrets w = Some s ->
  s !! "openai" = Some openai ->
  openai !! "api_key" = Some key ->
  openai !! "base_url" = Some url ->
  let req := ai_request w detail_df openai key url in
  (forall text, chat_completions_create w req = Ret text ->
     ai_analysis w detail_df log
     = (Ret tt, log ++ [ChatCreate req; St "success" "分析完成！";
                        St "markdown" "### 🧠 资深游资点评"; St "info" text]))
  /\ (forall e, chat_completions_create w req = Raise e ->
     ai_analysis w detail_df log
     = (Ret tt, log ++ [ChatCreate req; St "error" ("AI 分析请求失败: " +:+ str_exn e)]))
  /\ (forall m, openai !! "model" = Some m -> model req = m)
  /\ (length (top10_df (engine w) detail_df) <= 10)%nat.
Proof.
  intros Hs Hopenai Hkey Hurl req.
  rewrite (ai_analysis_with_section w detail_df log s openai Hs Hopenai), Hkey, Hurl.
  cbv zeta. fold req. split; [|split; [|split]].
  - intros text ->. reflexivity.
  - intros e ->. reflexivity.
  - intros m Hm. unfold req, ai_request. cbn [model]. now rewrite Hm.
  - unfold top10_df, head. rewrite length_firstn. lia.
Qed.

(** Whatever the secrets hold and whatever the endpoint does, the panel ends
    without an exception, only adds to the log, and calls the chat endpoint
    at most once. *)
Lemma ai_analysis_outcome (w : world)
    (detail_df : list (detail_row (option Z))) (log : list event) :
  fst (ai_analysis w detail_df log) = Ret tt
  /\ exists rest,
       snd (ai_analysis w detail_df log) = log ++ rest
       /\ (chat_calls rest <= 1)%nat.
Proof.
  destruct (secrets w) as [s|] eqn:Hs.
  - destruct (s !! "openai") as [openai|] eqn:Hopenai.
    + rewrite (ai_analysis_with_section w detail_df log s openai Hs Hopenai).
      destruct (openai !! "api_key") as [key|];
        [|split; [reflexivity|eexists; split; [reflexivity|count_calls]]].
      destruct (openai !! "base_url") as [url|];
        [|split; [reflexivity|eexists; split; [reflexivity|count_calls]]].
      cbv zeta. destruct (chat_completions_create w _) as [text|e];
        (split; [reflexivity|eexists; split; [reflexivity|count_calls]]).
    + rewrite ai_analysis_unconfigured by (right; eauto).
      split; [reflexivity|eexists; split; [reflexivity|count_calls]].
  - rewrite ai_analysis_unconfigured by now left.
    split; [reflexivity|eexists; split; [reflexivity|count_calls]].
Qed.

Lemma ai_analysis_request_witness :
  ai_analysis Sample.configured Sample.tied []
  = (Ret tt,
     [ChatCreate (ai_request Sample.configured Sample.tied Sample.openai_section
                    "sk-test" "https://api.openai.com/v1");
      St "success" "分析完成！"; St "markdown" "### 🧠 资深游资点评";
      St "info" "情绪分歧。"]).
Proof.
  apply (proj1 (ai_analysis_request Sample.configured Sample.tied [] _
                  Sample.openai_section "sk-test" "https://api.openai.com/v1"
                  eq_refl eq_refl eq_refl eq_refl)).
  reflexivity.
Defined.

(* ===================================================================== *)
(** * Properties of [main] *)
(* ===================================================================== *)

(** ** Running a sequence *)

Lemma bind_emit {B : Type} (ev : event) (k : unit -> prog B) (log : list event) :
  bind (emit ev) k log = k tt (log ++ [ev]).
Proof. reflexivity. Qed.

Lemma bind_run {A B : Type} (m : prog A) (k : A -> prog B) (log log' : list event)
    (a : A) :
  m log = (Ret a, log') -> bind m k log = k a log'.
Proof. intros H. unfold bind. now rewrite H. Qed.

Lemma bind_lift {A B : Type} (a : A) (k : A -> prog B) (log : list event) :
  bind (lift (Ret a)) k log = k a log.
Proof. reflexivity. Qed.

(** ** Programs that only add to the log *)

Lemma calls_ret {A : Type} (n : nat) (a : A) : calls_at_most n (ret a).
Proof. intros log. exists []. split; [cbn; now rewrite app_nil_r|cbn; lia]. Qed.

Lemma calls_lift {A : Type} (n : nat) (o : outcome A) : calls_at_most n (lift o).
Proof. intros log. exists []. split; [cbn; now rewrite app_nil_r|cbn; lia]. Qed.

Lemma calls_emit (n : nat) (ev : event) :
  is_chat_call ev = false -> calls_at_most n (emit ev).
Proof.
  intros Hev log. exists [ev]. split; [reflexivity|].
  rewrite chat_calls_cons, Hev. cbn. lia.
Qed.

Lemma calls_ask {A : Type} (n : nat) (ev : event) (r : response A) :
  is_chat_call ev = false -> calls_at_most n (ask ev r).
Proof.
  intros Hev log. exists [ev]. split; [now destruct r|].
  rewrite chat_calls_cons, Hev. cbn. lia.
Qed.

Lemma calls_bind {A B : Type} (n : nat) (m : prog A) (k : A -> prog B) :
  calls_at_most 0 m -> (forall a, calls_at_most n (k a)) -> calls_at_most n (bind m k).
Proof.
  intros Hm Hk log. destruct (Hm log) as (rest1 & Hlog1 & Hn1). unfold bind.
  destruct (m log) as [[a|e] log1]; cbn [snd] in Hlog1; subst log1.
  - destruct (Hk a (log ++ rest1)) as (rest2 & Hlog2 & Hn2).
    exists (rest1 ++ rest2). rewrite Hlog2, app_assoc. split; [reflexivity|].
    rewrite chat_calls_app. lia.
  - exists rest1. split; [reflexivity|lia].
Qed.

Lemma calls_try {A : Type} (n : nat) (body : prog A) (handler : exn -> prog A) :
  calls_at_most 0 body -> (forall e, calls_at_most n (handler e)) ->
  calls_at_most n (try_except body handler).
Proof.
  intros Hm Hk log. destruct (Hm log) as (rest1 & Hlog1 & Hn1). unfold try_except.
  destruct (body log) as [[a|e] log1]; cbn [snd] in Hlog1; subst log1.
  - exists rest1. split; [reflexivity|lia].
  - destruct (Hk e (log ++ rest1)) as (rest2 & Hlog2 & Hn2).
    exists (rest1 ++ rest2). rewrite Hlog2, app_assoc. split; [reflexivity|].
    rewrite chat_calls_app. lia.
Qed.

Ltac calls_step :=
  lazymatch goal with
  | |- calls_at_most _ (bind _ _) => apply calls_bind; [|intros ?]
  | |- calls_at_most _ (try_except _ _) => apply calls_try; [|intros ?]
  | |- calls_at_most _ (emit _) => apply calls_emit; reflexivity
  | |- calls_at_most _ (ask _ _) => apply calls_ask; reflexivity
  | |- calls_at_most _ (lift _) => apply calls_lift
  | |- calls_at_most _ (ret _) => apply calls_ret
  | |- calls_at_most _ (if ?b then _ else _) => destruct b eqn:?
  | |- calls_at_most _ (match ?x with _ => _ end) => destruct x
  end.

Ltac calls_open := unfold mbind, prog_bind, mret, prog_ret; cbv zeta.

Lemma calls_scan (ak : akshare) (today : Z) (offsets : list Z) :
  calls_at_most 0 (scan ak today offsets).
Proof.
  induction offsets as [|i older IH]; cbn [scan]; calls_open.
  - apply calls_ret.
  - repeat calls_step. exact IH.
Qed.

Lemma calls_find_latest_data (today : Z) (ak : akshare) :
  calls_at_most 0 (find_latest_data today ak).
Proof. apply calls_scan. Qed.

Lemma calls_get_lhb_data (ak : akshare) (date_str : string) :
  calls_at_most 0 (get_lhb_data ak date_str).
Proof. unfold get_lhb_data. calls_open. repeat calls_step. Qed.

Lemma calls_ai_analysis (w : world) (detail_df : list (detail_row (option Z))) :
  calls_at_most 1 (ai_analysis w detail_df).
Proof. intros log. apply ai_analysis_outcome. Qed.

(** ** The scan inside the page *)

Lemma find_latest_data_miss_log (today : Z) (ak : akshare) (log : list event) :
  Calendar.MINORD + 9 <= today <= Calendar.MAXORD ->
  (forall j : nat, (j < 10)%nat -> has_data ak (candidate today (Z.of_nat j)) = false) ->
  find_latest_data today ak log
  = (Ret (None, None), log ++ map (probe_event today) (range 10)).
Proof.
  intros Hclock Hmiss. unfold find_latest_data. apply scan_all_miss.
  apply Forall_range. intros j Hj. split; [|now apply Hmiss].
  unfold in_calendar, Calendar.MINORD, Calendar.MAXORD in *. lia.
Qed.

Lemma find_latest_data_hit_log (today : Z) (ak : akshare) (log : list event) (i : nat) :
  Calendar.MINORD + 9 <= today <= Calendar.MAXORD ->
  (i < 10)%nat ->
  has_data ak (candidate today (Z.of_nat i)) = true ->
  (forall j : nat, (j < i)%nat -> has_data ak (candidate today (Z.of_nat j)) = false) ->
  find_latest_data today ak log
  = (Ret (Some (candidate today (Z.of_nat i)), Some (display (today - Z.of_nat i))),
     log ++ map (probe_event today) (range (S i))).
Proof.
  intros Hclock Hi Hhit Hfirst.
  assert (Hcal : forall j : nat, (j < 10)%nat -> in_calendar today (Z.of_nat j)).
  { intros j Hj. unfold in_calendar, Calendar.MINORD, Calendar.MAXORD in *. lia. }
  unfold find_latest_data. rewrite (range_split i 10 Hi), scan_first_hit.
  - now rewrite range_S.
  - apply Forall_range. intros j Hj. split; [apply Hcal; lia|now apply Hfirst].
  - now apply Hcal.
  - exact Hhit.
Qed.

(** X11.  When none of the ten probes finds data the page shows its title and
    the message that no data was found, and nothing else: no load is
    attempted and no part of the overview is drawn. *)
Theorem main_not_found (w : world) :
  Calendar.MINORD + 9 <= today w <= Calendar.MAXORD ->
  (forall j : nat, (j < 10)%nat ->
                   has_data (ak w) (candidate (today w) (Z.of_nat j)) = false) ->
  run (main w)
  = (Ret tt,
     title_event :: map (probe_event (today w)) (range 10) ++ [not_found_event]).
Proof.
  intros Hclock Hmiss. unfold run, main. calls_open.
  rewrite bind_emit.
  rewrite (bind_run _ _ _ _ _ (find_latest_data_miss_log _ _ _ Hclock Hmiss)).
  cbv beta iota. cbn [falsy]. unfold emit. reflexivity.
Qed.

Lemma main_not_found_witness :
  run (main (Sample.world_with Sample.source_down true None))
  = (Ret tt,
     title_event :: map (probe_event Sample.tuesday) (range 10) ++ [not_found_event]).
Proof.
  apply (main_not_found (Sample.world_with Sample.source_down true None)).
  - vm_compute. split; discriminate.
  - intros j _. reflexivity.
Defined.

Lemma has_data_rows (ak : akshare) (date_str : string) (rows : list (detail_row cell)) :
  stock_lhb_detail_em ak date_str date_str = Returns (Some rows) ->
  rows <> [] -> has_data ak date_str = true.
Proof.
  intros H Hrows. unfold has_data. rewrite H, (nonempty_frame rows Hrows). reflexivity.
Qed.

(** The page up to the answer of the load, for a day found at offset [i]. *)
Lemma main_found (w : world) (i : nat) (rows : list (detail_row cell)) :
  Calendar.MINORD + 9 <= today w <= Calendar.MAXORD ->
  (i < 10)%nat ->
  stock_lhb_detail_em (ak w) (candidate (today w) (Z.of_nat i))
                      (candidate (today w) (Z.of_nat i)) = Returns (Some rows) ->
  rows <> [] ->
  (forall j : nat, (j < i)%nat ->
                   has_data (ak w) (candidate (today w) (Z.of_nat j)) = false) ->
  exists after_load : day_data -> prog unit,
    (forall data log,
        get_lhb_data (ak w) (candidate (today w) (Z.of_nat i))
          ((([] ++ [title_event]) ++ map (probe_event (today w)) (range (S i)))
           ++ [found_event (today w) (Z.of_nat i)])
        = (Ret data, log) ->
        main w [] = after_load data log)
    /\ (forall jg_df yyb_df log,
          after_load (None, jg_df, yyb_df) log = (Ret tt, log ++ [unavailable_event]))
    /\ (forall jg_df yyb_df log jg_shown waizi_shown,
          format_number (PyInt (jg_buy_total jg_df)) = Ret jg_shown ->
          format_number (PyInt (waizi_buy_total yyb_df)) = Ret waizi_shown ->
          exists rest,
            snd (after_load (Some rows, jg_df, yyb_df) log)
            = log ++ [St "subheader" "📊 市场概览";
                      StMetric "上榜个股"
                        (Float64.digits (Z.of_nat (total_stocks rows)) +:+ " 只");
                      StMetric "机构买入" jg_shown;
                      StMetric "外资买入" waizi_shown] ++ rest).
Proof.
  intros Hclock Hi Hdetail Hrows Hfirst.
  pose proof (has_data_rows _ _ _ Hdetail Hrows) as Hhit.
  eexists. split; [|split].
  - intros data log Hload. unfold main. calls_open.
    rewrite bind_emit.
    rewrite (bind_run _ _ _ _ _
               (find_latest_data_hit_log _ _ _ i Hclock Hi Hhit Hfirst)).
    cbv beta iota. unfold falsy.
    rewrite bool_decide_eq_false_2 by apply candidate_nonempty.
    rewrite bind_emit.
    change (str_opt (Some ?s)) with s.
    fold (found_event (today w) (Z.of_nat i)).
    rewrite (bind_run _ _ _ _ _ Hload).
    reflexivity.
  - intros jg_df yyb_df log. cbv beta iota. reflexivity.
  - intros jg_df yyb_df log jg_shown waizi_shown Hjg Hwaizi. cbv beta iota.
    rewrite !bind_emit. rewrite Hjg, bind_lift, bind_emit, Hwaizi, bind_lift, bind_emit.
    lazymatch goal with
    | |- exists rest, snd (?tail ?L) = _ =>
        assert (Htail : calls_at_most 1 tail)
    end.
    { repeat calls_step. apply calls_ai_analysis. }
    lazymatch goal with
    | |- exists rest, snd (?tail ?L) = _ => destruct (Htail L) as (rest & Hrest & _)
    end.
    exists rest. rewrite Hrest. now rewrite <- !app_assoc.
Qed.

(** X12.  When a day was found but a secondary fetch of its load raises, the
    page shows the banner of the day, the error of the load and the message
    that the details are unavailable, and stops: no metric, no ranking and no
    table is drawn.  (The data source answers alike for the probe and for the
    load of that day.) *)
Theorem main_load_unavailable (w : world) (i : nat) (rows : list (detail_row cell))
    (e : exn) :
  let d := candidate (today w) (Z.of_nat i) in
  Calendar.MINORD + 9 <= today w <= Calendar.MAXORD ->
  (i < 10)%nat ->
  stock_lhb_detail_em (ak w) d d = Returns (Some rows) ->
  rows <> [] ->
  (forall j : nat, (j < i)%nat ->
                   has_data (ak w) (candidate (today w) (Z.of_nat j)) = false) ->
  (stock_lhb_jgmmtj_em (ak w) d d = Fails e ->
   run (main w)
   = (Ret tt,
      title_event :: map (probe_event (today w)) (range (S i))
      ++ [found_event (today w) (Z.of_nat i); AkDetail d d; AkJg d d;
          load_error_event e; unavailable_event]))
  /\ (forall jg_df, stock_lhb_jgmmtj_em (ak w) d d = Returns jg_df ->
      stock_lhb_hyyyb_em (ak w) d d = Fails e ->
      run (main w)
      = (Ret tt,
         title_event :: map (probe_event (today w)) (range (S i))
         ++ [found_event (today w) (Z.of_nat i); AkDetail d d; AkJg d d; AkYyb d d;
             load_error_event e; unavailable_event])).
Proof.
  intros d Hclock Hi Hdetail Hrows Hfirst.
  destruct (main_found w i rows Hclock Hi Hdetail Hrows Hfirst)
    as (after_load & Hmain & Hnone & _).
  split.
  - intros Hjg. unfold run.
    rewrite (Hmain _ _ (load_jg_fails _ _ rows e _ Hdetail Hrows Hjg)), Hnone.
    f_equal. rewrite <- !app_assoc. reflexivity.
  - intros jg_df Hjg Hyyb. unfold run.
    rewrite (Hmain _ _ (load_yyb_fails _ _ rows jg_df e _ Hdetail Hrows Hjg Hyyb)), Hnone.
    f_equal. rewrite <- !app_assoc. reflexivity.
Qed.

Lemma main_load_unavailable_witness :
  run (main (Sample.world_with Sample.source_jg_down false None))
  = (Ret tt,
     title_event :: map (probe_event Sample.tuesday) (range 4)
     ++ [found_event Sample.tuesday 3; AkDetail "20261031" "20261031";
         AkJg "20261031" "20261031";
         load_error_event (Exception "connection reset"); unavailable_event]).
Proof.
  apply (proj1 (main_load_unavailable
                  (Sample.world_with Sample.source_jg_down false None) 3
                  Sample.detail (Exception "connection reset")
                  ltac:(vm_compute; split; discriminate) ltac:(lia) eq_refl
                  ltac:(discriminate)
                  ltac:(intros j Hj; do 3 (destruct j as [|j]; [reflexivity|]); lia))).
  reflexivity.
Defined.

(** X13.  When a day was found and its load returns, the page shows, right
    after the banner of the day and before any ranking, the count of distinct
    stocks and the institutional and foreign totals as [format_number] writes
    them; whatever happens further down the page does not take them back.  A
    secondary frame that is absent or empty shows as "0.00". *)
Theorem main_overview (w : world) (i : nat) (rows : list (detail_row cell))
    (jg_df : option (list jg_row)) (yyb_df : option (list yyb_row))
    (jg_shown waizi_shown : string) :
  let d := candidate (today w) (Z.of_nat i) in
  Calendar.MINORD + 9 <= today w <= Calendar.MAXORD ->
  (i < 10)%nat ->
  stock_lhb_detail_em (ak w) d d = Returns (Some rows) ->
  rows <> [] ->
  (forall j : nat, (j < i)%nat ->
                   has_data (ak w) (candidate (today w) (Z.of_nat j)) = false) ->
  stock_lhb_jgmmtj_em (ak w) d d = Returns jg_df ->
  stock_lhb_hyyyb_em (ak w) d d = Returns yyb_df ->
  format_number (PyInt (jg_buy_total jg_df)) = Ret jg_shown ->
  format_number (PyInt (waizi_buy_total yyb_df)) = Ret waizi_shown ->
  (exists rest,
      snd (run (main w))
      = title_event :: map (probe_event (today w)) (range (S i))
        ++ [found_event (today w) (Z.of_nat i); AkDetail d d; AkJg d d; AkYyb d d;
            St "subheader" "📊 市场概览";
            StMetric "上榜个股" (Float64.digits (Z.of_nat (total_stocks rows)) +:+ " 只");
            StMetric "机构买入" jg_shown;
            StMetric "外资买入" waizi_shown]
        ++ rest)
  /\ (none_or_empty jg_df = true -> jg_shown = "0.00")
  /\ (none_or_empty yyb_df = true -> waizi_shown = "0.00").
Proof.
  intros d Hclock Hi Hdetail Hrows Hfirst Hjg Hyyb Hjg_shown Hwaizi_shown.
  destruct (main_found w i rows Hclock Hi Hdetail Hrows Hfirst)
    as (after_load & Hmain & _ & Hsome).
  split; [|split].
  - unfold run.
    rewrite (Hmain _ _ (load_complete _ _ rows jg_df yyb_df _ Hdetail Hrows Hjg Hyyb)).
    destruct (Hsome jg_df yyb_df
                (((((([] ++ [title_event]) ++ map (probe_event (today w)) (range (S i)))
                    ++ [found_event (today w) (Z.of_nat i)]) ++ [AkDetail d d])
                  ++ [AkJg d d]) ++ [AkYyb d d])
                jg_shown waizi_shown Hjg_shown Hwaizi_shown) as (rest & Hrest).
    exists rest. rewrite Hrest. rewrite <- !app_assoc. reflexivity.
  - intros Hempty. rewrite (jg_buy_total_default jg_df Hempty) in Hjg_shown.
    vm_compute in Hjg_shown. now injection Hjg_shown as <-.
  - intros Hempty. rewrite (waizi_buy_total_default yyb_df Hempty) in Hwaizi_shown.
    vm_compute in Hwaizi_shown. now injection Hwaizi_shown as <-.
Qed.

Lemma main_overview_witness :
  exists rest,
    snd (run (main Sample.configured))
    = title_event :: map (probe_event Sample.tuesday) (range 4)
      ++ [found_event Sample.tuesday 3; AkDetail "20261031" "20261031";
          AkJg "20261031" "20261031"; AkYyb "20261031" "20261031";
          St "subheader" "📊 市场概览";
          StMetric "上榜个股" "11 只";
          StMetric "机构买入" ("5000.00" +:+ wan);
          StMetric "外资买入" ("1.20" +:+ yi)]
      ++ rest.
Proof.
  apply (proj1 (main_overview Sample.configured 3 Sample.detail
                  (Some Sample.jg) (Some Sample.yyb) ("5000.00" +:+ wan) ("1.20" +:+ yi)
                  ltac:(vm_compute; split; discriminate) ltac:(lia) eq_refl
                  ltac:(discriminate)
                  ltac:(intros j Hj; do 3 (destruct j as [|j]; [reflexivity|]); lia)
                  eq_refl eq_refl
                  ltac:(vm_compute; reflexivity) ltac:(vm_compute; reflexivity))).
Defined.

Lemma calls_main (w : world) : calls_at_most 1 (main w).
Proof.
  unfold main. calls_open. repeat calls_step;
    first [apply calls_find_latest_data|apply calls_get_lhb_data|apply calls_ai_analysis].
Qed.

Lemma calls_main_no_button (w : world) : button w = false -> calls_at_most 0 (main w).
Proof.
  intros Hbutton. unfold main. calls_open. repeat calls_step;
    first [apply calls_find_latest_data|apply calls_get_lhb_data|congruence].
Qed.

(** X14.  A run of the page calls the chat endpoint at most once, and not at
    all unless the button was pressed; the panel behind the button never lets
    an exception out, whatever the secrets hold and the endpoint does. *)
Theorem chat_called_at_most_once (w : world) :
  (chat_calls (snd (run (main w))) <= 1)%nat
  /\ (button w = false -> chat_calls (snd (run (main w))) = 0%nat)
  /\ (forall (detail_df : list (detail_row (option Z))) (log : list event),
        fst (ai_analysis w detail_df log) = Ret tt).
Proof.
  split; [|split].
  - destruct (calls_main w []) as (rest & Hrest & Hn). unfold run. now rewrite Hrest.
  - intros Hbutton. destruct (calls_main_no_button w Hbutton []) as (rest & Hrest & Hn).
    unfold run. rewrite Hrest. cbn [app]. lia.
  - intros detail_df log. apply ai_analysis_outcome.
Qed.

Lemma chat_called_at_most_once_witness :
  chat_calls (snd (run (main (Sample.world_with Sample.source false None)))) = 0%nat.
Proof.
  apply (proj1 (proj2 (chat_called_at_most_once
                         (Sample.world_with Sample.source false None)))).
  reflexivity.
Defined.

(* ===================================================================== *)
(** * More on [format_number] *)
(* ===================================================================== *)

Lemma app_same_length_inj (a a' b b' : string) :
  String.length b = String.length b' -> a +:+ b = a' +:+ b' -> a = a' /\ b = b'.
Proof.
  intros Hlen. revert a'. induction a as [|c a IH]; intros [|c' a'] H.
  - now split.
  - exfalso. change (b = String c' (a' +:+ b')) in H. subst b. simpl in Hlen.
    rewrite string_length_app in Hlen. lia.
  - exfalso. change (String c (a +:+ b) = b') in H. subst b'. simpl in Hlen.
    rewrite string_length_app in Hlen. lia.
  - change (String c (a +:+ b) = String c' (a' +:+ b')) in H.
    injection H as -> H. destruct (IH a' H) as [-> ->]. now split.
Qed.

Lemma yi_not_wan (s s' : string) : s +:+ yi <> s' +:+ wan.
Proof.
  intros H. apply app_same_length_inj in H as [_ H]; [discriminate|reflexivity].
Qed.

Lemma zero_no_unit (s : string) : "0" <> s +:+ yi /\ "0" <> s +:+ wan.
Proof.
  split; intros H; assert (Hp : plain "0" = true) by reflexivity;
    rewrite H, plain_app in Hp; apply andb_true_iff in Hp as [_ Hp];
    vm_compute in Hp; discriminate.
Qed.

(** X15.  The unit shown tells the band of the value: the result ends in 亿
    exactly when the value is at least 100,000,000, and in 万 exactly when it
    is below that and at least 10,000; a missing value is shown without a
    unit. *)
Theorem format_number_unit_tells_band (v : value) :
  (isna v = true ->
   forall s, format_number v <> Ret (s +:+ yi) /\ format_number v <> Ret (s +:+ wan))
  /\ (forall x : spec_float, isna v = false -> float v = Ret x ->
        ((exists s, format_number v = Ret (s +:+ yi))
         <-> Float64.ge x c100000000 = true)
        /\ ((exists s, format_number v = Ret (s +:+ wan))
            <-> Float64.ge x c100000000 = false /\ Float64.ge x c10000 = true)).
Proof.
  split.
  - intros Hna s. unfold format_number. rewrite Hna.
    destruct (zero_no_unit s) as [Hyi Hwan]. split; congruence.
  - intros x Hna Hx. unfold format_number. rewrite Hna, Hx.
    destruct (Float64.ge x c100000000) eqn:Hband1.
    + split; [split; [reflexivity|intros _; eauto]|].
      split; [|intros [H _]; discriminate].
      intros [s [= H]]. now apply yi_not_wan in H.
    + destruct (Float64.ge x c10000) eqn:Hband2.
      * split; [|split; [intros _; now split|intros _; eauto]].
        split; [|discriminate]. intros [s [= H]]. symmetry in H.
        now apply yi_not_wan in H.
      * split; (split; [|intros H; solve [discriminate|destruct H as [_ H']; discriminate]]);
          intros [s [= H]]; now apply (fixed2_no_unit x s) in H.
Qed.

Lemma format_number_unit_tells_band_witness :
  (exists s, format_number (PyInt 120000000) = Ret (s +:+ yi))
  /\ ~ (exists s, format_number (PyInt (-200000000)) = Ret (s +:+ yi)).
Proof.
  split.
  - apply (proj1 (proj2 (format_number_unit_tells_band (PyInt 120000000))
                    (Float64.of_Z 120000000) eq_refl eq_refl)).
    reflexivity.
  - intros H.
    apply (proj1 (proj2 (format_number_unit_tells_band (PyInt (-200000000)))
                    (Float64.of_Z (-200000000)) eq_refl eq_refl)) in H.
    discriminate.
Defined.
